(** * garage: the half-cheetah direction environment and the RL2 benchmark

    A shallow embedding of [src/garage/envs/half_cheetah_dir_env.py] and of
    the call [run_garage] makes to the training loop in
    [tests/benchmarks/garage/tf/algos/test_benchmark_rl2_new2.py], with the
    directories, files and calls of the test that drives it.

    Python floats and numpy's float64 are IEEE-754 binary64 numbers: they are
    modelled by Rocq's primitive floats, whose operations are specified by the
    standard library through [SpecFloat].  Python dictionaries with string
    keys are stdpp's [gmap string _]. *)

From Stdlib Require Import ZArith Lia Bool List.
From Stdlib Require Import Floats Ascii.
From stdpp Require Import base option list strings gmap pretty.

Set Warnings "-inexact-float".

(** ** Numbers

    A direction stored in a task is either a float (the default task of the
    constructor holds [1.]) or an integer of numpy's int64 (what
    [2 * binomial(...) - 1] yields).  Arithmetic with a float64 operand
    converts the integer to float64 first. *)

Inductive num : Type :=
  | NInt (z : Z)
  | NFloat (f : float).

(** int64 to float64, rounded to nearest even as the hardware does. *)
Definition float_of_Z (z : Z) : float :=
  SF2Prim (binary_normalize prec emax z 0 false).

Definition to_float (v : num) : float :=
  match v with
  | NInt z => float_of_Z z
  | NFloat f => f
  end.

(** Two's complement wrap-around of numpy's int64 arithmetic. *)
Definition int64 (z : Z) : Z :=
  ((z + 2 ^ 63) mod 2 ^ 64 - 2 ^ 63)%Z.

(** [v in {-1.0, 1.0}] with Python's numeric [==]. *)
Definition is_direction (v : num) : bool :=
  (to_float v =? -1)%float || (to_float v =? 1)%float.

(** ** Exceptions and results *)

Inductive exn : Type :=
  | KeyError (key : string)
  | IndexError
  | ValueError
  | SimulationError.

Inductive result (A : Type) : Type :=
  | Ok (a : A)
  | Raise (e : exn).
Arguments Ok {A} a.
Arguments Raise {A} e.

#[global] Instance result_ret : MRet result := fun A a => Ok a.

#[global] Instance result_bind : MBind result := fun A B k r =>
  match r with
  | Ok a => k a
  | Raise e => Raise e
  end.

(** [d[key]] on a dictionary. *)
Definition getitem {V : Type} (d : gmap string V) (key : string) : result V :=
  match d !! key with
  | Some v => Ok v
  | None => Raise (KeyError key)
  end.

(** [a[0]] on a one-dimensional array. *)
Definition index0 (a : list float) : result float :=
  match a with
  | x :: _ => Ok x
  | [] => Raise IndexError
  end.

(** ** numpy on float64 vectors *)

Definition np_square (a : list float) : list float :=
  map (fun x => (x * x)%float) a.

(** [np.sum] of a short vector: the entries are added from left to right onto
    [0.] (numpy switches to blocked summation from eight entries on; the
    cheetah has six actuators). *)
Definition np_sum (a : list float) : float :=
  fold_left (fun acc x => (acc + x)%float) a 0%float.

(** ** Signs of floats, read off the IEEE specification *)

(** Sign bit clear and not NaN: [+0.], a positive number or [+inf]. *)
Definition SFnonneg (x : spec_float) : bool :=
  match x with
  | S754_zero s | S754_infinity s | S754_finite s _ _ => negb s
  | S754_nan => false
  end.

Definition SFfinite (x : spec_float) : bool :=
  match x with
  | S754_finite _ _ _ => true
  | _ => false
  end.

Definition nonneg (x : float) : bool := SFnonneg (Prim2SF x).

(** ** The base class

    [HalfCheetahEnvMetaBase] and the MuJoCo bindings under it are not part of
    the sources: the simulator, the observation function and numpy's random
    generator are taken as an interface.  [do_simulation] writes the action
    to the controls and advances the physics by [n_frames] sub-steps; it may
    raise on a malformed action.  [binomial g n p size] is
    [g.binomial(n, p, size=(size,))]: the drawn int64 array and the generator
    after the draw. *)

Class MujocoBase : Type := {
  MjSim : Type;
  RandomState : Type;
  qpos : MjSim -> list float;
  qvel : MjSim -> list float;
  do_simulation : MjSim -> list float -> Z -> result MjSim;
  _get_obs : MjSim -> list float;
  binomial : RandomState -> Z -> float -> Z -> result (list Z * RandomState);
  (** what [super().__init__()] sets up *)
  init_sim : MjSim;
  init_np_random : RandomState;
  init_frame_skip : Z;
  init_dt : float;
}.


(** A task: [{'direction': d}]. *)
Abbreviation task_t := (gmap string num).

Section HalfCheetahDirEnv.
Context `{MujocoBase}.

(** The attributes of an environment instance. [dt] is the base class's
    property: the simulator's timestep times [frame_skip]. *)
Record HalfCheetahDirEnv : Type := mkEnv {
  _goal_dir : num;
  sim : MjSim;
  np_random : RandomState;
  frame_skip : Z;
  dt : float;
}.

Definition with_goal_dir (self : HalfCheetahDirEnv) (d : num) : HalfCheetahDirEnv :=
  mkEnv d (sim self) (np_random self) (frame_skip self) (dt self).

Definition with_sim (self : HalfCheetahDirEnv) (s : MjSim) : HalfCheetahDirEnv :=
  mkEnv (_goal_dir self) s (np_random self) (frame_skip self) (dt self).

Definition with_np_random (self : HalfCheetahDirEnv) (g : RandomState) : HalfCheetahDirEnv :=
  mkEnv (_goal_dir self) (sim self) g (frame_skip self) (dt self).

(** [task = task or {'direction': 1.}]: [None] and the empty dictionary are
    falsy. *)
Definition task_or_default (task : option task_t) : task_t :=
  match task with
  | None => {[ "direction" := NFloat 1 ]}
  | Some t => if decide (t = ∅) then {[ "direction" := NFloat 1 ]} else t
  end.

Definition __init__ (task : option task_t) : result HalfCheetahDirEnv :=
  let task := task_or_default task in
  d ← getitem task "direction";
  mret (mkEnv d init_sim init_np_random init_frame_skip init_dt).

(** What [step] returns: the tuple [(observation, reward, done, infos)]. *)
Record step_result : Type := mkStep {
  observation : list float;
  reward : float;
  done : bool;
  infos : gmap string num;
}.

(** [self'] is [self] once [do_simulation] has advanced its simulator. *)
Definition step (self : HalfCheetahDirEnv) (action : list float)
  : result (step_result * HalfCheetahDirEnv) :=
  xposbefore ← index0 (qpos (sim self));
  sim' ← do_simulation (sim self) action (frame_skip self);
  let self' := with_sim self sim' in
  xposafter ← index0 (qpos (sim self'));
  let forward_vel := ((xposafter - xposbefore) / dt self')%float in
  let forward_reward := (to_float (_goal_dir self') * forward_vel)%float in
  let ctrl_cost := (0.5 * 1e-1 * np_sum (np_square action))%float in
  let observation := _get_obs (sim self') in
  let reward := (forward_reward - ctrl_cost)%float in
  let done := false in
  let infos : gmap string num :=
    {[ "reward_forward" := NFloat forward_reward;
       "reward_ctrl" := NFloat (- ctrl_cost)%float;
       "task_dir" := _goal_dir self' ]} in
  mret (mkStep observation reward done infos, self').

Definition sample_tasks (self : HalfCheetahDirEnv) (num_tasks : Z)
  : result (list task_t * HalfCheetahDirEnv) :=
  '(draws, g) ← binomial (np_random self) 1 0.5%float num_tasks;
  let directions := map (fun b => int64 (int64 (2 * b) - 1)) draws in
  let tasks : list task_t :=
    map (fun direction => {[ "direction" := NInt direction ]}) directions in
  mret (tasks, with_np_random self g).

Definition set_task (self : HalfCheetahDirEnv) (task : task_t)
  : result HalfCheetahDirEnv :=
  d ← getitem task "direction";
  mret (with_goal_dir self d).

(** A rollout: [step] once per action, in order, collecting what each call
    returns. *)
Fixpoint rollout (self : HalfCheetahDirEnv) (actions : list (list float))
  : result (list step_result * HalfCheetahDirEnv) :=
  match actions with
  | [] => mret ([], self)
  | action :: rest =>
      '(r, self') ← step self action;
      '(rs, self'') ← rollout self' rest;
      mret (r :: rs, self'')
  end.

(** The simulator never sees the direction: two environments on the same
    simulator state move alike under the same action, and differ only in the
    sign and scale their direction gives to the velocity [v]. *)
Definition same_motion (d1 d2 : float) (r1 r2 : step_result) : Prop :=
  exists v c,
    infos r1 !! "reward_forward" = Some (NFloat (d1 * v)%float) /\
    infos r2 !! "reward_forward" = Some (NFloat (d2 * v)%float) /\
    infos r1 !! "reward_ctrl" = Some (NFloat c) /\
    infos r2 !! "reward_ctrl" = Some (NFloat c) /\
    observation r1 = observation r2.

(** A task whose direction is -1 or 1. *)
Definition valid_task (task : task_t) : Prop :=
  exists d, task !! "direction" = Some d /\ is_direction d = true.

(** The environments a program can reach through the constructor and the
    three methods, when the tasks it passes in are taken from [admitted]. *)
Inductive reachable (admitted : task_t -> Prop) : HalfCheetahDirEnv -> Prop :=
  | reach_init (task : option task_t) self :
      admitted (task_or_default task) ->
      __init__ task = Ok self ->
      reachable admitted self
  | reach_step self (action : list float) r self' :
      reachable admitted self ->
      step self action = Ok (r, self') ->
      reachable admitted self'
  | reach_sample_tasks self num_tasks tasks self' :
      reachable admitted self ->
      sample_tasks self num_tasks = Ok (tasks, self') ->
      reachable admitted self'
  | reach_set_task self (task : task_t) self' :
      reachable admitted self ->
      admitted task ->
      set_task self task = Ok self' ->
      reachable admitted self'.

End HalfCheetahDirEnv.

(** ** The benchmark harness

    [tests/benchmarks/garage/tf/algos/test_benchmark_rl2_new2.py]: the
    hyper-parameters and the calls [run_garage] makes on the runner. *)

Module Benchmark.

(** [ML = False]: run HalfCheetah rather than the meta-world tasks. *)
Definition ML : bool := false.

(** The keys of the [hyper_parameters] dictionary. *)
Record hyper_parameters_t : Type := mkHyper {
  meta_batch_size : Z;
  hidden_sizes : list Z;
  gae_lambda : Z;
  discount : float;
  max_path_length : Z;
  n_itr : Z;
  steps_per_epoch : Z;
  rollout_per_task : Z;
  positive_adv : bool;
  normalize_adv : bool;
  optimizer_lr : float;
  lr_clip_range : float;
  optimizer_max_epochs : Z;
  n_trials : Z;
  n_test_tasks : Z;
  cell_type : string;
  sampler_cls : string;
  use_all_workers : bool;
}.

Definition hyper_parameters : hyper_parameters_t := {|
  meta_batch_size := 50;
  hidden_sizes := [64%Z];
  gae_lambda := 1;
  discount := 0.99;
  max_path_length := 150;
  n_itr := if ML then 100 else 50;
  steps_per_epoch := 10;
  rollout_per_task := 10;
  positive_adv := false;
  normalize_adv := true;
  optimizer_lr := 1e-3;
  lr_clip_range := 0.2;
  optimizer_max_epochs := 5;
  n_trials := 1;
  n_test_tasks := 10;
  cell_type := "gru";
  sampler_cls := "RaySampler";
  use_all_workers := true;
|}.

(** The methods [run_garage] calls on its [LocalTFRunner], with the keyword
    arguments that come from the hyper-parameters. *)
Inductive runner_call : Type :=
  | setup (sampler_cls : string) (n_workers : Z) (worker_class : string)
          (use_all_workers : bool) (n_paths_per_trial : Z)
  | setup_meta_evaluator (sampler_cls : string) (n_test_tasks : Z)
  | train (n_epochs : Z) (batch_size : Z).

(** [run_garage] reads the module-level dictionary; here it is passed in.
    The result is the sequence of calls made on the runner. *)
Definition run_garage (hp : hyper_parameters_t) : list runner_call :=
  [ setup (sampler_cls hp) (meta_batch_size hp) "RL2Worker"
          (use_all_workers hp) (rollout_per_task hp);
    setup_meta_evaluator (sampler_cls hp) (n_test_tasks hp);
    train (n_itr hp)
          (meta_batch_size hp * rollout_per_task hp * max_path_length hp) ].

(** The [(n_epochs, batch_size)] of each call to [train]. *)
Definition train_calls (calls : list runner_call) : list (Z * Z) :=
  omap (fun c => match c with
                 | train n_epochs batch_size => Some (n_epochs, batch_size)
                 | _ => None
                 end) calls.

End Benchmark.

(** ** The benchmark test

    [TestBenchmarkRL2.test_benchmark_rl2] of the same file: the directories
    and files of a benchmark run, and the calls the test makes in order.
    Python's [random.sample] is taken as an interface. *)

Module BenchmarkTest.
Import Benchmark.

(** What the test can raise. *)
Inductive test_exn : Type :=
  | UnboundLocalError (name : string)
  | ListIndexError
  | SampleValueError.

Inductive outcome (A : Type) : Type :=
  | Passed (a : A)
  | Failed (e : test_exn).
Arguments Passed {A} a.
Arguments Failed {A} e.

#[global] Instance outcome_ret : MRet outcome := fun A a => Passed a.

#[global] Instance outcome_bind : MBind outcome := fun A B k r =>
  match r with
  | Passed a => k a
  | Failed e => Failed e
  end.

(** [random.sample(range(n), k)] on the generator [g]: the sample and the
    generator afterwards, or [ValueError]. *)
Class PyRandom : Type := {
  Rng : Type;
  random_sample : Rng -> Z -> Z -> outcome (list Z * Rng);
}.

(** What Python documents for [random.sample]: for [0 <= k <= n] it returns
    [k] distinct elements of the population. *)
Definition random_sample_contract `{PyRandom} : Prop :=
  forall (g : Rng) (n k : Z),
    (0 <= k <= n)%Z ->
    exists seeds g',
      random_sample g n k = Passed (seeds, g') /\
      Z.of_nat (length seeds) = k /\
      NoDup seeds /\
      Forall (fun seed => (0 <= seed < n)%Z) seeds.

(** [s.endswith('/')] *)
Fixpoint endswith_sep (s : string) : bool :=
  match s with
  | EmptyString => false
  | String c EmptyString => Ascii.eqb c "/"%char
  | String _ s' => endswith_sep s'
  end.

(** [os.path.join(a, b)] on a POSIX system. *)
Definition osp_join (a b : string) : string :=
  if String.prefix "/" b then b
  else if String.eqb a "" || endswith_sep a then a +:+ b
  else a +:+ "/" +:+ b.

(** [s.replace(old, new)] for one-character [old] and [new]. *)
Fixpoint replace_char (old new : ascii) (s : string) : string :=
  match s with
  | EmptyString => EmptyString
  | String c s' =>
      String (if Ascii.eqb c old then new else c) (replace_char old new s')
  end.

Definition env_ids : list string :=
  if ML then ["ML1-push-v1"] else ["HalfCheetahVelEnv"].

Definition g_ys : list string :=
  if ML
  then ["Evaluation/AverageReturn"; "Evaluation/SuccessRate";
        "MetaTest/AverageReturn"; "MetaTest/SuccessRate"]
  else ["Evaluation/AverageReturn"; "MetaTest/AverageReturn"].

(** ['./data/local/benchmarks/rl2/%s/' % timestamp] *)
Definition benchmark_dir (timestamp : string) : string :=
  "./data/local/benchmarks/rl2/" +:+ timestamp +:+ "/".

(** [task_dir + '/trial_%d_seed_%d' % (trial + 1, seed)] *)
Definition trial_dir (task_dir : string) (trial : nat) (seed : Z) : string :=
  task_dir +:+ ("/trial_" +:+ pretty (Z.of_nat trial + 1)%Z
                +:+ "_seed_" +:+ pretty seed).

Definition garage_dir (task_dir : string) (trial : nat) (seed : Z) : string :=
  trial_dir task_dir trial seed +:+ "/garage".

(** What [run_garage(env, seed, log_dir)] returns: the CSV file its logger
    writes, [osp.join(log_dir, 'progress.csv')]. *)
Definition tabular_log_file (log_dir : string) : string :=
  osp_join log_dir "progress.csv".

(** ['{}_benchmark_fit_individial_{}.png'.format(env_id, g_y.replace('/', '-'))],
    joined to the benchmark directory. *)
Definition plot_name (env_id g_y : string) : string :=
  env_id +:+ "_benchmark_fit_individial_"
         +:+ replace_char "/"%char "-"%char g_y +:+ ".png".

Definition plt_file (benchmark_dir env_id g_y : string) : string :=
  osp_join benchmark_dir (plot_name env_id g_y).

(** The calls the test makes on its collaborators. *)
Inductive event : Type :=
  | env_reset (env_id : string)
  | call_run_garage (env_id : string) (seed : Z) (log_dir : string)
  | write_parameters (path : string)
  | env_close (env_id : string)
  | relplot (g_csvs : list string) (g_y : string) (trials : Z)
            (seeds : list Z) (plt_file : string) (env_id : string).

Section Test.
Context `{PyRandom}.

(** The local variables of the test that outlive a loop iteration, the calls
    made so far and the random generator.  [garage_tf_dir] is bound by the
    first trial only. *)
Record frame : Type := mkFrame {
  garage_tf_dir : option string;
  garage_tf_csvs : list string;
  calls : list event;
  rng : Rng;
}.

(** The body of [for trial in range(n_trials)]. *)
Definition trial_body (env_id task_dir : string) (seeds : list Z)
  (f : frame) (trial : nat) : outcome frame :=
  match seeds !! trial with
  | None => Failed ListIndexError
  | Some seed =>
      let garage_tf_dir := garage_dir task_dir trial seed in
      let garage_tf_csv := tabular_log_file garage_tf_dir in
      Passed (mkFrame (Some garage_tf_dir)
                      (garage_tf_csvs f ++ [garage_tf_csv])
                      (calls f ++ [env_reset env_id;
                                   call_run_garage env_id seed garage_tf_dir])
                      (rng f))
  end.

Fixpoint trial_loop (env_id task_dir : string) (seeds : list Z)
  (trials : list nat) (f : frame) : outcome frame :=
  match trials with
  | [] => Passed f
  | trial :: rest =>
      f' ← trial_body env_id task_dir seeds f trial;
      trial_loop env_id task_dir seeds rest f'
  end.

(** The body of [for i, env in enumerate(envs)]. *)
Definition env_body (hp : hyper_parameters_t) (benchmark_dir : string)
  (f : frame) (env_id : string) : outcome frame :=
  '(seeds, g) ← random_sample (rng f) 100 (n_trials hp);
  let task_dir := osp_join benchmark_dir env_id in
  let f0 := mkFrame (garage_tf_dir f) [] (calls f) g in
  f1 ← trial_loop env_id task_dir seeds (seq 0 (Z.to_nat (n_trials hp))) f0;
  match garage_tf_dir f1 with
  | None => Failed (UnboundLocalError "garage_tf_dir")
  | Some dir =>
      let plots :=
        map (fun g_y => relplot (garage_tf_csvs f1) g_y (n_trials hp) seeds
                                (plt_file benchmark_dir env_id g_y) env_id)
            g_ys in
      Passed (mkFrame (garage_tf_dir f1) (garage_tf_csvs f1)
                (calls f1 ++ [write_parameters (osp_join dir "parameters.txt");
                              env_close env_id] ++ plots)
                (rng f1))
  end.

Fixpoint env_loop (hp : hyper_parameters_t) (benchmark_dir : string)
  (ids : list string) (f : frame) : outcome frame :=
  match ids with
  | [] => Passed f
  | env_id :: rest =>
      f' ← env_body hp benchmark_dir f env_id;
      env_loop hp benchmark_dir rest f'
  end.

(** The test, from the time stamp it reads and the state of the random
    generator; the hyper-parameters are the module-level dictionary. *)
Definition test_benchmark_rl2 (hp : hyper_parameters_t) (timestamp : string)
  (g : Rng) : outcome (list event) :=
  f ← env_loop hp (benchmark_dir timestamp) env_ids (mkFrame None [] [] g);
  mret (calls f).

End Test.

(** What a run of the test leaves behind, read off its calls: the log
    directories and seeds of the [run_garage] calls, the parameter files
    written and the plots drawn. *)
Definition run_garage_dirs (calls : list event) : list string :=
  omap (fun c => match c with
                 | call_run_garage _ _ log_dir => Some log_dir
                 | _ => None
                 end) calls.

Definition run_garage_seeds (calls : list event) : list Z :=
  omap (fun c => match c with
                 | call_run_garage _ seed _ => Some seed
                 | _ => None
                 end) calls.

Definition parameter_files (calls : list event) : list string :=
  omap (fun c => match c with
                 | write_parameters path => Some path
                 | _ => None
                 end) calls.

Definition plots (calls : list event) : list event :=
  omap (fun c => match c with
                 | relplot _ _ _ _ _ _ => Some c
                 | _ => None
                 end) calls.

(** The characters of a decimal number. *)
Definition digits : list ascii := String.list_ascii_of_string "0123456789".

(** The calls of one trial per seed, in order, and the CSV files of these
    trials. *)
Definition trial_calls (env_id task_dir : string) (seeds : list Z) : list event :=
  mjoin (imap (fun t s => [env_reset env_id;
                           call_run_garage env_id s (garage_dir task_dir t s)])
              seeds).

Definition trial_csvs (task_dir : string) (seeds : list Z) : list string :=
  imap (fun t s => garage_dir task_dir t s +:+ "/progress.csv") seeds.

End BenchmarkTest.

(** ** A small instance of the base class

    A point mass on a line driven by six controls, with a linear congruential
    generator for the random source: it lets the definitions above run on
    concrete inputs. *)

Module PointMass.

Record state : Type := mkState { pos : float; vel : float }.

Definition substep (u : float) (s : state) : state :=
  let v := (vel s + u * 0.01)%float in
  mkState (pos s + v * 0.01)%float v.

Definition simulate (s : state) (ctrl : list float) (n_frames : Z) : result state :=
  if (length ctrl =? 6)%nat
  then Ok (Z.iter n_frames (substep (np_sum ctrl)) s)
  else Raise SimulationError.

Definition lcg (g : Z) : Z := ((g * 1103515245 + 12345) mod 2 ^ 31)%Z.

Fixpoint draws (k : nat) (n : Z) (g : Z) : list Z * Z :=
  match k with
  | O => ([], g)
  | S k' =>
      let g1 := lcg g in
      let '(bs, g2) := draws k' n g1 in
      (((g1 / 65536) mod (n + 1))%Z :: bs, g2)
  end.

Definition lcg_binomial (g n : Z) (p : float) (size : Z) : result (list Z * Z) :=
  if (size <? 0)%Z then Raise ValueError
  else Ok (draws (Z.to_nat size) n g).

#[global] Instance base : MujocoBase := {|
  MjSim := state;
  RandomState := Z;
  qpos s := [pos s];
  qvel s := [vel s];
  do_simulation := simulate;
  _get_obs s := [pos s; vel s];
  binomial := lcg_binomial;
  init_sim := mkState 0 0;
  init_np_random := 2020%Z;
  init_frame_skip := 5%Z;
  init_dt := 0.05%float;
|}.

(** The environment right after [HalfCheetahDirEnv()]. *)
Definition env0 : HalfCheetahDirEnv :=
  mkEnv (NFloat 1) (mkState 0 0) 2020%Z 5%Z 0.05%float.

Definition action0 : list float := [1; 0; 0; 0; 0; 0]%float.


(** What one call and what two calls in a row return. *)
Definition step1 : step_result * HalfCheetahDirEnv :=
  match step env0 action0 with
  | Ok p => p
  | Raise _ => (mkStep [] 0 true ∅, env0)
  end.

Definition run2 : list step_result * HalfCheetahDirEnv :=
  match rollout env0 [action0; action0] with
  | Ok p => p
  | Raise _ => ([], env0)
  end.

(** The same two actions with the direction reversed. *)
Definition env_back : HalfCheetahDirEnv := with_goal_dir env0 (NFloat (-1)).

(** Construct, sample five tasks and set the second of them. *)
Definition env_sampled : HalfCheetahDirEnv :=
  mkEnv (NInt (-1)) (mkState 0 0) 1380489289%Z 5%Z 0.05%float.

(** More actions, and what one call returns on each. *)
Definition nan_action : list float := [nan; 0; 0; 0; 0; 0]%float.
Definition zero_action : list float := [0; -0; 0; 0; 0; 0]%float.
Definition opp_action0 : list float := map (fun x => (- x)%float) action0.

Definition step_on (action : list float) : step_result * HalfCheetahDirEnv :=
  match step env0 action with
  | Ok p => p
  | Raise _ => (mkStep [] 0 true ∅, env0)
  end.

(** The five tasks sampled first, and the environment after sampling. *)
Definition tasks5 : list task_t :=
  (fun d : Z => ({[ "direction" := NInt d ]} : task_t)) <$> [1; -1; 1; 1; -1]%Z.

Definition env_after_sampling : HalfCheetahDirEnv :=
  with_np_random env0 1380489289%Z.

End PointMass.

(** ** A small instance of [random.sample]

    The [k] largest elements of the population, largest first. *)

Module ToyRandom.
Import BenchmarkTest.

Definition top_sample (g : nat) (n k : Z) : outcome (list Z * nat) :=
  if ((k <? 0) || (n <? k))%Z then Failed SampleValueError
  else Passed ((fun i => (n - 1 - Z.of_nat i)%Z) <$> seq 0 (Z.to_nat k), S g).

#[global] Instance toy : PyRandom := {|
  Rng := nat;
  random_sample := top_sample;
|}.

(** The hyper-parameters with [n_trials] set to [n]. *)
Definition with_n_trials (n : Z) : Benchmark.hyper_parameters_t :=
  Benchmark.mkHyper 50 [64%Z] 1 0.99 150 50 10 10 false true 1e-3 0.2 5 n 10
    "gru" "RaySampler" true.

End ToyRandom.

(** * Properties *)

Example float_of_Z_one : float_of_Z 1 = 1%float /\ float_of_Z (-1) = (-1)%float.
Proof. split; reflexivity. Qed.

(** ** IEEE-754 facts used below

    Each is proved on the standard library's specification of binary64 and
    carried to the primitive floats through [Prim2SF]. *)

Module FloatFacts.

Lemma shr_1_nonneg mrs : (0 <= shr_m mrs)%Z -> (0 <= shr_m (shr_1 mrs))%Z.
Proof. destruct mrs as [m r s]; destruct m as [|[p|p|]|p]; simpl; lia. Qed.

Lemma iter_shr_1_nonneg p : forall mrs,
  (0 <= shr_m mrs)%Z -> (0 <= shr_m (SpecFloat.iter_pos shr_1 p mrs))%Z.
Proof.
  induction p as [p IH|p IH|]; intros mrs Hm; simpl.
  - apply IH, IH, shr_1_nonneg, Hm.
  - apply IH, IH, Hm.
  - apply shr_1_nonneg, Hm.
Qed.

Lemma shr_fexp_nonneg m e l :
  (0 <= m)%Z -> (0 <= shr_m (fst (shr_fexp prec emax m e l)))%Z.
Proof.
  intros Hm. unfold shr_fexp, shr.
  assert (Hr : (0 <= shr_m (shr_record_of_loc m l))%Z)
    by (destruct l as [|[]]; exact Hm).
  destruct (_ - e)%Z; simpl; auto using iter_shr_1_nonneg.
Qed.

Lemma round_nearest_even_nonneg m l :
  (0 <= m)%Z -> (0 <= round_nearest_even m l)%Z.
Proof. destruct l as [|[]]; simpl; try destruct (Z.even m); lia. Qed.

(** Rounding never changes the sign it is given. *)
Lemma binary_round_aux_nonneg m e l :
  (0 <= m)%Z -> SFnonneg (binary_round_aux prec emax false m e l) = true.
Proof.
  intros Hm. unfold binary_round_aux.
  pose proof (shr_fexp_nonneg m e l Hm) as H1.
  destruct (shr_fexp prec emax m e l) as [mrs' e']; simpl in H1.
  pose proof (shr_fexp_nonneg _ e' loc_Exact
    (round_nearest_even_nonneg _ (loc_of_shr_record mrs') H1)) as H2.
  destruct (shr_fexp prec emax _ e' loc_Exact) as [mrs'' e'']; simpl in H2.
  destruct (shr_m mrs''); [reflexivity | | lia].
  destruct (_ <=? _)%Z; reflexivity.
Qed.

Lemma binary_round_aux_opp s m e l :
  binary_round_aux prec emax (negb s) m e l
  = SFopp (binary_round_aux prec emax s m e l).
Proof.
  unfold binary_round_aux.
  destruct (shr_fexp prec emax m e l) as [mrs' e'].
  destruct (shr_fexp prec emax _ e' loc_Exact) as [mrs'' e''].
  destruct (shr_m mrs''); [reflexivity | | reflexivity].
  destruct (_ <=? _)%Z; reflexivity.
Qed.

Lemma SFmul_opp_l x y : SF64mul (SFopp x) y = SFopp (SF64mul x y).
Proof.
  destruct x as [sx|sx| |sx mx ex], y as [sy|sy| |sy my ey]; simpl;
    try reflexivity; try (now destruct sx, sy).
  rewrite <- binary_round_aux_opp. now destruct sx, sy.
Qed.

Lemma SFsub_add_opp x y : SF64sub x y = SF64add x (SFopp y).
Proof.
  destruct x as [sx|sx| |sx mx ex], y as [sy|sy| |sy my ey]; simpl;
    try reflexivity; now destruct sx, sy.
Qed.

Lemma SFmul_square_nonneg x : x <> S754_nan -> SFnonneg (SF64mul x x) = true.
Proof.
  destruct x as [s|s| |s m e]; intros Hx; simpl;
    [now destruct s | now destruct s | congruence | ].
  replace (xorb s s) with false by (now destruct s).
  now apply binary_round_aux_nonneg.
Qed.

Lemma SFmul_nonneg x y :
  SFfinite x = true -> SFnonneg x = true -> SFnonneg y = true ->
  SFnonneg (SF64mul x y) = true.
Proof.
  destruct x as [sx|sx| |sx mx ex], y as [sy|sy| |sy my ey]; simpl;
    try discriminate; intros _ Hx Hy;
    apply negb_true_iff in Hx, Hy; subst; try reflexivity.
  now apply binary_round_aux_nonneg.
Qed.

Lemma SFadd_nonneg x y :
  SFnonneg x = true -> SFnonneg y = true -> SFnonneg (SF64add x y) = true.
Proof.
  destruct x as [sx|sx| |sx mx ex], y as [sy|sy| |sy my ey]; simpl;
    try discriminate; intros Hx Hy;
    apply negb_true_iff in Hx, Hy; subst; try reflexivity.
  unfold binary_normalize, binary_round. simpl.
  destruct (shl_align _ _ _) as [mz ez].
  now apply binary_round_aux_nonneg.
Qed.

Lemma SFleb_opp_nonneg x :
  SFnonneg x = true -> SFleb (SFopp x) (S754_zero false) = true.
Proof.
  destruct x as [s|s| |s m e]; simpl; try discriminate; intros Hx;
    apply negb_true_iff in Hx; subst; reflexivity.
Qed.

(** The same facts on primitive floats. *)

Lemma sub_add_opp (x y : float) : (x - y = x + - y)%float.
Proof.
  apply Prim2SF_inj.
  now rewrite sub_spec, add_spec, opp_spec, SFsub_add_opp.
Qed.

Lemma mul_opp_l (x y : float) : (- x * y = - (x * y))%float.
Proof.
  apply Prim2SF_inj.
  now rewrite mul_spec, !opp_spec, mul_spec, SFmul_opp_l.
Qed.

Lemma is_nan_false (x : float) : is_nan x = false -> Prim2SF x <> S754_nan.
Proof.
  unfold is_nan. rewrite FloatAxioms.eqb_spec. intros Hx Hn. rewrite Hn in Hx.
  discriminate.
Qed.

Lemma square_nonneg (x : float) : is_nan x = false -> nonneg (x * x) = true.
Proof.
  intros Hx. unfold nonneg. rewrite mul_spec.
  now apply SFmul_square_nonneg, is_nan_false.
Qed.

Lemma add_nonneg (x y : float) :
  nonneg x = true -> nonneg y = true -> nonneg (x + y) = true.
Proof. unfold nonneg. rewrite add_spec. apply SFadd_nonneg. Qed.

Lemma mul_nonneg (x y : float) :
  SFfinite (Prim2SF x) = true -> nonneg x = true -> nonneg y = true ->
  nonneg (x * y) = true.
Proof. unfold nonneg. rewrite mul_spec. apply SFmul_nonneg. Qed.

Lemma opp_nonneg_leb (x : float) : nonneg x = true -> (- x <=? 0)%float = true.
Proof.
  unfold nonneg. intros Hx. rewrite FloatAxioms.leb_spec, opp_spec.
  now apply SFleb_opp_nonneg.
Qed.

End FloatFacts.

(** ** What [step] does *)

Section StepFacts.
Context `{MujocoBase}.
Implicit Types (self : HalfCheetahDirEnv) (action : list float).

(** [step] returns as soon as the simulator accepts the action and the
    position array is not empty, and what it returns is then determined. *)
Lemma step_returns self action xposbefore sim' xposafter :
  index0 (qpos (sim self)) = Ok xposbefore ->
  do_simulation (sim self) action (frame_skip self) = Ok sim' ->
  index0 (qpos sim') = Ok xposafter ->
  let forward_reward :=
    (to_float (_goal_dir self) * ((xposafter - xposbefore) / dt self))%float in
  let ctrl_cost := (0.5 * 1e-1 * np_sum (np_square action))%float in
  step self action =
    Ok (mkStep (_get_obs sim') (forward_reward - ctrl_cost)%float false
          {[ "reward_forward" := NFloat forward_reward;
             "reward_ctrl" := NFloat (- ctrl_cost)%float;
             "task_dir" := _goal_dir self ]},
        with_sim self sim').
Proof.
  intros Hb Hs Ha. unfold step. rewrite Hb. cbn. rewrite Hs. cbn.
  rewrite Ha. reflexivity.
Qed.

(** Conversely, a call that returns went through these three stages. *)
Lemma step_inv self action r self' :
  step self action = Ok (r, self') ->
  exists xposbefore sim' xposafter,
    index0 (qpos (sim self)) = Ok xposbefore /\
    do_simulation (sim self) action (frame_skip self) = Ok sim' /\
    index0 (qpos sim') = Ok xposafter /\
    self' = with_sim self sim' /\
    r = mkStep (_get_obs sim')
          (to_float (_goal_dir self) * ((xposafter - xposbefore) / dt self)
           - 0.5 * 1e-1 * np_sum (np_square action))%float
          false
          {[ "reward_forward" :=
               NFloat (to_float (_goal_dir self)
                       * ((xposafter - xposbefore) / dt self))%float;
             "reward_ctrl" :=
               NFloat (- (0.5 * 1e-1 * np_sum (np_square action)))%float;
             "task_dir" := _goal_dir self ]}.
Proof.
  unfold step. intros Hstep.
  destruct (index0 (qpos (sim self))) as [xb|] eqn:Hb; [| discriminate].
  cbn in Hstep.
  destruct (do_simulation (sim self) action (frame_skip self)) as [s'|] eqn:Hs;
    [| discriminate].
  cbn in Hstep.
  destruct (index0 (qpos s')) as [xa|] eqn:Ha; [| discriminate].
  cbn in Hstep. injection Hstep as <- <-.
  exists xb, s', xa. repeat split; assumption.
Qed.

(** The squares of numbers add up to a non-negative number. *)
Lemma np_sum_nonneg (a : list float) : forall acc,
  nonneg acc = true ->
  Forall (fun x => nonneg x = true) a ->
  nonneg (fold_left (fun acc x => (acc + x)%float) a acc) = true.
Proof.
  induction a as [|x a IH]; intros acc Hacc Ha; simpl; [exact Hacc |].
  inversion Ha as [|? ? Hx Ha']; subst.
  apply IH; [now apply FloatFacts.add_nonneg | exact Ha'].
Qed.

Lemma sum_of_squares_nonneg (a : list float) :
  Forall (fun x => is_nan x = false) a ->
  nonneg (np_sum (np_square a)) = true.
Proof.
  intros Ha. unfold np_sum, np_square. apply np_sum_nonneg; [reflexivity |].
  apply Forall_map. eapply Forall_impl; [exact Ha |].
  intros x Hx. simpl. now apply FloatFacts.square_nonneg.
Qed.

End StepFacts.

(** ** The reward of one step *)

Section StepClaims.
Context `{MujocoBase}.
Implicit Types (self : HalfCheetahDirEnv) (action : list float).



Lemma step_done self action r self' :
  step self action = Ok (r, self') -> done r = false.
Proof.
  intros Hstep.
  now destruct (step_inv _ _ _ _ Hstep) as (? & ? & ? & _ & _ & _ & _ & ->).
Qed.

(** C8.  Every call to [step] that returns has [done = False], at whatever
    point of a rollout it is made. *)
Theorem step_done_false self actions rs self' :
  rollout self actions = Ok (rs, self') ->
  length rs = length actions /\ Forall (fun r => done r = false) rs.
Proof.
  revert self rs. induction actions as [|action rest IH]; intros self rs Hr.
  - injection Hr as <- _. split; [reflexivity | constructor].
  - cbn [rollout] in Hr.
    destruct (step self action) as [[r self1]|] eqn:Hstep; [| discriminate].
    cbn in Hr.
    destruct (rollout self1 rest) as [[rs1 self2]|] eqn:Hrest; [| discriminate].
    cbn in Hr. injection Hr as <- <-.
    destruct (IH _ _ Hrest) as [Hlen Hall].
    split; [simpl; now rewrite Hlen |].
    constructor; [exact (step_done _ _ _ _ Hstep) | exact Hall].
Qed.

(** C10.  The info mapping agrees with the reward: the reward is
    [infos['reward_forward'] + infos['reward_ctrl']], and [infos['task_dir']]
    is the active direction. *)
Theorem step_infos_consistent self action r self' :
  step self action = Ok (r, self') ->
  exists reward_forward reward_ctrl,
    infos r !! "reward_forward" = Some (NFloat reward_forward) /\
    infos r !! "reward_ctrl" = Some (NFloat reward_ctrl) /\
    reward r = (reward_forward + reward_ctrl)%float /\
    infos r !! "task_dir" = Some (_goal_dir self) /\
    _goal_dir self' = _goal_dir self.
Proof.
  intros Hstep.
  destruct (step_inv _ _ _ _ Hstep) as (xb & s' & xa & _ & _ & _ & -> & ->).
  eexists _, _. repeat split; try reflexivity.
  cbn [reward]. apply FloatFacts.sub_add_opp.
Qed.

(** The worked example: the action [[1, 0, 0, 0, 0, 0]] with direction 1.0
    and a measured forward velocity of 2.0 gives [reward_forward = 2.0], a
    control cost of 0.05 and the reward 1.95. *)
Example step_worked_example self sim' position_before position_after :
  index0 (qpos (sim self)) = Ok position_before ->
  do_simulation (sim self) [1; 0; 0; 0; 0; 0]%float (frame_skip self) = Ok sim' ->
  index0 (qpos sim') = Ok position_after ->
  to_float (_goal_dir self) = 1%float ->
  ((position_after - position_before) / dt self)%float = 2%float ->
  exists r,
    step self [1; 0; 0; 0; 0; 0]%float = Ok (r, with_sim self sim') /\
    infos r !! "reward_forward" = Some (NFloat 2) /\
    infos r !! "reward_ctrl" = Some (NFloat (-0.05)) /\
    reward r = 1.95%float.
Proof.
  intros Hb Hs Ha Hd Hv.
  eexists. split; [exact (step_returns _ _ _ _ _ Hb Hs Ha) |].
  cbn [infos reward]. rewrite Hd, Hv. repeat split.
Qed.

End StepClaims.

(** ** Tasks *)

Section TaskClaims.
Context `{MujocoBase}.
Implicit Types (self : HalfCheetahDirEnv) (action : list float) (task : task_t).

Lemma set_task_returns self task d :
  task !! "direction" = Some d -> set_task self task = Ok (with_goal_dir self d).
Proof. intros Hd. unfold set_task, getitem. now rewrite Hd. Qed.

Lemma set_task_inv self task self' :
  set_task self task = Ok self' ->
  exists d, task !! "direction" = Some d /\ self' = with_goal_dir self d.
Proof.
  unfold set_task, getitem. destruct (task !! "direction") as [d|];
    [| discriminate].
  cbn. intros [= <-]. now exists d.
Qed.

Lemma step_same_motion self1 self2 action r1 e1 :
  sim self1 = sim self2 -> frame_skip self1 = frame_skip self2 ->
  dt self1 = dt self2 ->
  step self1 action = Ok (r1, e1) ->
  exists r2,
    step self2 action = Ok (r2, with_sim self2 (sim e1)) /\
    same_motion (to_float (_goal_dir self1)) (to_float (_goal_dir self2)) r1 r2.
Proof.
  intros Hsim Hfs Hdt Hstep.
  destruct (step_inv _ _ _ _ Hstep) as (xb & s' & xa & Hb & Hs & Ha & -> & ->).
  rewrite Hsim in Hb. rewrite Hsim, Hfs in Hs.
  eexists. split; [exact (step_returns _ _ _ _ _ Hb Hs Ha) |].
  exists ((xa - xb) / dt self1)%float. eexists.
  rewrite <- Hdt. repeat split; reflexivity.
Qed.

Lemma rollout_same_motion actions : forall self1 self2 rs1 e1,
  sim self1 = sim self2 -> frame_skip self1 = frame_skip self2 ->
  dt self1 = dt self2 ->
  rollout self1 actions = Ok (rs1, e1) ->
  exists rs2,
    rollout self2 actions = Ok (rs2, with_sim self2 (sim e1)) /\
    Forall2 (same_motion (to_float (_goal_dir self1))
                         (to_float (_goal_dir self2))) rs1 rs2.
Proof.
  induction actions as [|action rest IH]; intros self1 self2 rs1 e1 Hsim Hfs Hdt Hr.
  - injection Hr as <- <-. exists []. split; [| constructor].
    cbn. rewrite Hsim. now destruct self2.
  - cbn [rollout] in Hr.
    destruct (step self1 action) as [[r1 s1]|] eqn:Hstep; [| discriminate].
    cbn in Hr.
    destruct (rollout s1 rest) as [[rs1' s1']|] eqn:Hrest; [| discriminate].
    cbn in Hr. injection Hr as <- <-.
    destruct (step_same_motion _ self2 _ _ _ Hsim Hfs Hdt Hstep)
      as (r2 & Hstep2 & Hrel).
    destruct (step_inv _ _ _ _ Hstep) as (? & s' & ? & _ & _ & _ & -> & _).
    destruct (IH (with_sim self1 s') (with_sim self2 s') _ _
                eq_refl Hfs Hdt Hrest) as (rs2 & Hrest2 & Hall).
    exists (r2 :: rs2). split.
    + cbn [rollout]. rewrite Hstep2. cbn. rewrite Hrest2. reflexivity.
    + constructor; assumption.
Qed.

(** C2.  Two runs of the same actions from the same simulator state, one with
    direction [1.0] and one with [-1.0]: the second returns whenever the first
    does, and at every step its [reward_forward] is the negation of the
    first's while [reward_ctrl] is the same. *)
Theorem opposite_directions_opposite_rewards self1 self2 actions rs1 e1 :
  sim self1 = sim self2 -> frame_skip self1 = frame_skip self2 ->
  dt self1 = dt self2 ->
  to_float (_goal_dir self1) = 1%float ->
  to_float (_goal_dir self2) = (-1)%float ->
  rollout self1 actions = Ok (rs1, e1) ->
  exists rs2 e2,
    rollout self2 actions = Ok (rs2, e2) /\
    Forall2 (fun r1 r2 => exists reward_forward reward_ctrl,
      infos r1 !! "reward_forward" = Some (NFloat reward_forward) /\
      infos r2 !! "reward_forward" = Some (NFloat (- reward_forward)%float) /\
      infos r1 !! "reward_ctrl" = Some (NFloat reward_ctrl) /\
      infos r2 !! "reward_ctrl" = Some (NFloat reward_ctrl)) rs1 rs2.
Proof.
  intros Hsim Hfs Hdt Hd1 Hd2 Hr.
  destruct (rollout_same_motion _ _ self2 _ _ Hsim Hfs Hdt Hr) as (rs2 & Hr2 & Hall).
  exists rs2, (with_sim self2 (sim e1)). split; [exact Hr2 |].
  rewrite Hd1, Hd2 in Hall.
  eapply Forall2_impl; [exact Hall |].
  intros r1 r2 (v & c & Hf1 & Hf2 & Hc1 & Hc2 & _).
  exists (1 * v)%float, c. repeat split; try assumption.
  rewrite Hf2. change (-1)%float with (- (1))%float.
  now rewrite FloatFacts.mul_opp_l.
Qed.

End TaskClaims.

Section TaskInvariant.
Context `{MujocoBase}.
Implicit Types (self : HalfCheetahDirEnv) (action : list float) (task : task_t).

Lemma sample_tasks_inv self num_tasks tasks self' :
  sample_tasks self num_tasks = Ok (tasks, self') ->
  exists draws g,
    binomial (np_random self) 1 0.5%float num_tasks = Ok (draws, g) /\
    self' = with_np_random self g /\
    tasks = map (fun b => {[ "direction" := NInt (int64 (int64 (2 * b) - 1)) ]})
                draws.
Proof.
  unfold sample_tasks. intros Hs.
  destruct (binomial (np_random self) 1 0.5%float num_tasks) as [[draws g]|];
    [| discriminate].
  cbn in Hs. injection Hs as <- <-. exists draws, g.
  repeat split. now rewrite map_map.
Qed.


(** C4.  [set_task] on a task with a direction returns, and changes the
    direction only: the simulator with its position and velocity arrays, the
    random source, the frame skip and the timestep are as they were.  The
    next [step] reports the new direction and rewards the velocity with it. *)
Theorem set_task_frame self task d :
  task !! "direction" = Some d ->
  exists self',
    set_task self task = Ok self' /\
    _goal_dir self' = d /\
    sim self' = sim self /\
    qpos (sim self') = qpos (sim self) /\
    qvel (sim self') = qvel (sim self) /\
    np_random self' = np_random self /\
    frame_skip self' = frame_skip self /\
    dt self' = dt self /\
    forall action r self'',
      step self' action = Ok (r, self'') ->
      infos r !! "task_dir" = Some d /\
      exists position_before position_after,
        index0 (qpos (sim self)) = Ok position_before /\
        index0 (qpos (sim self'')) = Ok position_after /\
        infos r !! "reward_forward"
        = Some (NFloat (to_float d
             * ((position_after - position_before) / dt self))%float).
Proof.
  intros Hd. exists (with_goal_dir self d).
  split; [now apply set_task_returns |].
  repeat (split; [reflexivity |]).
  intros action r self'' Hstep.
  destruct (step_inv _ _ _ _ Hstep) as (xb & s' & xa & Hb & _ & Ha & -> & ->).
  split; [reflexivity |].
  exists xb, xa. repeat split; assumption || reflexivity.
Qed.

Lemma set_task_singleton self (d : num) :
  set_task self {[ "direction" := d ]} = Ok (with_goal_dir self d).
Proof. apply set_task_returns, lookup_singleton_eq. Qed.

(** A rollout touches nothing but the simulator. *)
Lemma rollout_frame self actions rs self' :
  rollout self actions = Ok (rs, self') -> self' = with_sim self (sim self').
Proof.
  intros Hr.
  destruct (rollout_same_motion actions self self _ _ eq_refl eq_refl eq_refl Hr)
    as (rs2 & Hr2 & _).
  rewrite Hr in Hr2. now injection Hr2.
Qed.

(** C5 as the code has it.  The direction is -1 or 1 in every environment
    reached by constructing it without a task, with an empty task or with a
    task whose direction is -1 or 1, and then calling [step], [sample_tasks]
    and [set_task] with tasks whose direction is -1 or 1. *)
Theorem direction_invariant self :
  reachable valid_task self -> is_direction (_goal_dir self) = true.
Proof.
  intros Hreach.
  induction Hreach as [task self Htask Hinit
                      | self action r self' _ IH Hstep
                      | self n tasks self' _ IH Hsample
                      | self task self' _ _ Htask Hset].
  - destruct Htask as (d & Hd & Hok).
    unfold __init__, getitem in Hinit. rewrite Hd in Hinit.
    cbn in Hinit. now injection Hinit as <-.
  - destruct (step_inv _ _ _ _ Hstep) as (? & ? & ? & _ & _ & _ & -> & _).
    exact IH.
  - destruct (sample_tasks_inv _ _ _ _ Hsample) as (? & ? & _ & -> & _).
    exact IH.
  - destruct Htask as (d & Hd & Hok).
    rewrite (set_task_returns _ _ _ Hd) in Hset. now injection Hset as <-.
Qed.

(** C7.  Setting the direction to -1 and then to 1 gives the environment
    that setting it to 1 alone gives, which is the environment itself when
    its direction was [1.0] already; this also holds with any steps taken in
    between, whose simulator state carries over.  Setting a task twice is
    setting it once, and [set_task] returns in every state. *)
Theorem set_task_last_wins self :
  (self1 ← set_task self {[ "direction" := NFloat (-1) ]};
   set_task self1 {[ "direction" := NFloat 1 ]})
  = set_task self {[ "direction" := NFloat 1 ]} /\
  (_goal_dir self = NFloat 1 ->
   (self1 ← set_task self {[ "direction" := NFloat (-1) ]};
    set_task self1 {[ "direction" := NFloat 1 ]}) = Ok self) /\
  (forall actions rs self1 self2 self3,
     set_task self {[ "direction" := NFloat (-1) ]} = Ok self1 ->
     rollout self1 actions = Ok (rs, self2) ->
     set_task self2 {[ "direction" := NFloat 1 ]} = Ok self3 ->
     exists rs' self2' ,
       rollout self actions = Ok (rs', self2') /\
       set_task self2' {[ "direction" := NFloat 1 ]} = Ok self3) /\
  (forall task, (self1 ← set_task self task; set_task self1 task)
                = set_task self task) /\
  (forall task d, task !! "direction" = Some d ->
                  exists self', set_task self task = Ok self').
Proof.
  split; [reflexivity |].
  split; [intros Hd; destruct self; cbn in *; now subst |].
  split.
  - intros actions rs self1 self2 self3 H1 Hr H3.
    rewrite set_task_singleton in H1, H3. injection H1 as <-. injection H3 as <-.
    destruct (rollout_same_motion actions (with_goal_dir self (NFloat (-1))) self
                _ _ eq_refl eq_refl eq_refl Hr) as (rs' & Hr' & _).
    exists rs'. eexists. split; [exact Hr' |].
    rewrite set_task_singleton, (rollout_frame _ _ _ _ Hr). reflexivity.
  - split.
    + intros task. unfold set_task, getitem.
      destruct (task !! "direction") as [d|]; reflexivity.
    + intros task d Hd. eexists. exact (set_task_returns _ _ _ Hd).
Qed.

End TaskInvariant.

(** ** The benchmark harness *)

Section Harness.
Import Benchmark.

(** C9.  [run_garage] calls [train] once, with [n_itr] epochs and a batch of
    [meta_batch_size * rollout_per_task * max_path_length] samples per epoch;
    with the configured hyper-parameters that is 50 epochs of
    [50 * 10 * 150] samples. *)
Theorem run_garage_train :
  (forall hp,
     train_calls (run_garage hp)
     = [(n_itr hp,
         (meta_batch_size hp * rollout_per_task hp * max_path_length hp)%Z)]) /\
  n_itr hyper_parameters = 50%Z /\
  train_calls (run_garage hyper_parameters) = [(50, 50 * 10 * 150)%Z].
Proof.
  split; [| split].
  - intros hp. unfold run_garage, train_calls. reflexivity.
  - unfold hyper_parameters, ML. reflexivity.
  - reflexivity.
Qed.

End Harness.

(** ** The statements at work on the point mass *)

Module Runs.
Import PointMass.



Example init_default : __init__ None = Ok env0.
Proof. reflexivity. Qed.

Example init_empty_dict : __init__ (Some ∅) = Ok env0.
Proof. reflexivity. Qed.

Example step1_returns : step env0 action0 = Ok (step1.1, step1.2).
Proof. reflexivity. Qed.

Example run2_returns : rollout env0 [action0; action0] = Ok (run2.1, run2.2).
Proof. reflexivity. Qed.

Example step1_values :
  reward step1.1 = (-0.020000000000000004)%float /\
  done step1.1 = false /\
  infos step1.1 !! "reward_forward" = Some (NFloat 0.029999999999999999) /\
  infos step1.1 !! "reward_ctrl" = Some (NFloat (-0.05)) /\
  infos step1.1 !! "task_dir" = Some (NFloat 1).
Proof. vm_compute. repeat split. Qed.




Lemma step_done_false_witness :
  length run2.1 = 2%nat /\ Forall (fun r => done r = false) run2.1.
Proof.
  apply (step_done_false env0 [action0; action0] run2.1 run2.2).
  reflexivity.
Defined.

Lemma step_infos_consistent_witness :
  exists reward_forward reward_ctrl,
    infos step1.1 !! "reward_forward" = Some (NFloat reward_forward) /\
    infos step1.1 !! "reward_ctrl" = Some (NFloat reward_ctrl) /\
    reward step1.1 = (reward_forward + reward_ctrl)%float /\
    infos step1.1 !! "task_dir" = Some (NFloat 1) /\
    _goal_dir step1.2 = NFloat 1.
Proof.
  apply (step_infos_consistent env0 action0 step1.1 step1.2).
  reflexivity.
Defined.

Lemma opposite_directions_witness :
  exists rs2 e2,
    rollout env_back [action0; action0] = Ok (rs2, e2) /\
    Forall2 (fun r1 r2 => exists reward_forward reward_ctrl,
      infos r1 !! "reward_forward" = Some (NFloat reward_forward) /\
      infos r2 !! "reward_forward" = Some (NFloat (- reward_forward)%float) /\
      infos r1 !! "reward_ctrl" = Some (NFloat reward_ctrl) /\
      infos r2 !! "reward_ctrl" = Some (NFloat reward_ctrl)) run2.1 rs2.
Proof.
  apply (opposite_directions_opposite_rewards env0 env_back [action0; action0]
           run2.1 run2.2); reflexivity.
Defined.


Example sample_tasks_values :
  sample_tasks env0 5
  = Ok ((fun d : Z => ({[ "direction" := NInt d ]} : task_t)) <$> [1; -1; 1; 1; -1]%Z,
        with_np_random env0 1380489289%Z).
Proof. reflexivity. Qed.

Lemma set_task_frame_witness :
  exists self',
    set_task env0 {[ "direction" := NFloat (-1) ]} = Ok self' /\
    _goal_dir self' = NFloat (-1) /\
    sim self' = sim env0 /\
    qpos (sim self') = qpos (sim env0) /\
    qvel (sim self') = qvel (sim env0) /\
    np_random self' = np_random env0 /\
    frame_skip self' = frame_skip env0 /\
    dt self' = dt env0 /\
    forall action r self'',
      step self' action = Ok (r, self'') ->
      infos r !! "task_dir" = Some (NFloat (-1)) /\
      exists position_before position_after,
        index0 (qpos (sim env0)) = Ok position_before /\
        index0 (qpos (sim self'')) = Ok position_after /\
        infos r !! "reward_forward"
        = Some (NFloat (to_float (NFloat (-1))
             * ((position_after - position_before) / dt env0))%float).
Proof.
  exact (set_task_frame env0 {[ "direction" := NFloat (-1) ]} (NFloat (-1))
           eq_refl).
Defined.

Lemma direction_invariant_witness :
  reachable valid_task env_sampled /\
  is_direction (_goal_dir env_sampled) = true.
Proof.
  assert (Hreach : reachable valid_task env_sampled).
  { eapply (reach_set_task _ _ {[ "direction" := NInt (-1) ]}).
    - eapply reach_sample_tasks; [| exact sample_tasks_values].
      apply (reach_init _ None); [| reflexivity].
      exists (NFloat 1). split; reflexivity.
    - exists (NInt (-1)). split; reflexivity.
    - reflexivity. }
  split; [exact Hreach | exact (direction_invariant _ Hreach)].
Defined.

(** Neither the constructor nor [set_task] looks at the value it stores: a
    task with direction 0.5 is accepted by both. *)
Lemma direction_not_invariant :
  (exists self,
     __init__ (Some {[ "direction" := NFloat 0.5 ]}) = Ok self /\
     reachable (fun _ => True) self /\
     is_direction (_goal_dir self) = false) /\
  (exists self',
     set_task env0 {[ "direction" := NFloat 0.5 ]} = Ok self' /\
     is_direction (_goal_dir env0) = true /\
     reachable (fun _ => True) self' /\
     is_direction (_goal_dir self') = false).
Proof.
  split.
  - eexists. split; [reflexivity |]. split; [| reflexivity].
    now apply (reach_init _ (Some {[ "direction" := NFloat 0.5 ]})).
  - eexists. split; [reflexivity |]. split; [reflexivity |].
    split; [| reflexivity].
    eapply (reach_set_task _ env0 {[ "direction" := NFloat 0.5 ]});
      [| exact I | reflexivity].
    now apply (reach_init _ None).
Qed.

Lemma set_task_last_wins_witness :
  (self1 ← set_task env0 {[ "direction" := NFloat (-1) ]};
   set_task self1 {[ "direction" := NFloat 1 ]}) = Ok env0.
Proof. exact (proj1 (proj2 (set_task_last_wins env0)) eq_refl). Defined.

End Runs.

(** * Further properties of the environment *)

(** ** More IEEE-754 facts *)

Module FloatArith.

Lemma digits2_pos_xO p : Zpos (digits2_pos p~0) = (Zpos (digits2_pos p) + 1)%Z.
Proof. simpl. lia. Qed.

(** Multiplying by 1 is exact: the product of the mantissas is shifted back
    by the 52 bits the mantissa of 1 adds, and nothing is rounded off. *)
Lemma SFmul_one_l x :
  valid_binary x = true -> SF64mul (S754_finite false 4503599627370496 (-52)) x = x.
Proof.
  destruct x as [s|s| |s m e]; try reflexivity.
  intros Hv. unfold SF64mul, SFmul. cbn [xorb].
  unfold valid_binary, bounded, canonical_mantissa in Hv.
  apply andb_true_iff in Hv. destruct Hv as [Hc Hb].
  apply Z.eqb_eq in Hc.
  assert (Hd : Zpos (digits2_pos (4503599627370496 * m))
               = (Zpos (digits2_pos m) + 52)%Z).
  { cbv [Pos.mul]. repeat rewrite digits2_pos_xO. lia. }
  assert (Hshift :
    shr_fexp prec emax (Zpos (4503599627370496 * m)) (-52 + e) loc_Exact
    = ({| shr_m := Zpos m; shr_r := false; shr_s := false |}, e)).
  { unfold shr_fexp, Zdigits2. rewrite Hd.
    replace (Zpos (digits2_pos m) + 52 + (-52 + e))%Z
      with (Zpos (digits2_pos m) + e)%Z by lia.
    rewrite Hc. replace (e - (-52 + e))%Z with 52%Z by lia.
    unfold shr. cbv [Pos.mul]. f_equal. lia. }
  unfold binary_round_aux. rewrite Hshift.
  cbn [shr_m loc_of_shr_record round_nearest_even].
  unfold shr_fexp, Zdigits2. rewrite Hc, Z.sub_diag.
  cbn [shr shr_record_of_loc shr_m]. now rewrite Hb.
Qed.

Lemma SFsub_zero_r x : SF64sub x (S754_zero false) = x.
Proof. destruct x as [[]|[]| |s m e]; reflexivity. Qed.

Lemma SFmul_opp_opp x y : SF64mul (SFopp x) (SFopp y) = SF64mul x y.
Proof.
  destruct x as [sx|sx| |sx mx ex], y as [sy|sy| |sy my ey]; simpl;
    try reflexivity; try (now destruct sx, sy).
Qed.

Lemma mul_1_l (x : float) : (1 * x = x)%float.
Proof.
  apply Prim2SF_inj. rewrite mul_spec.
  change (Prim2SF 1) with (S754_finite false 4503599627370496 (-52)).
  apply SFmul_one_l, Prim2SF_valid.
Qed.

Lemma mul_m1_l (x : float) : (-1 * x = - x)%float.
Proof.
  change (-1)%float with (- (1))%float.
  now rewrite FloatFacts.mul_opp_l, mul_1_l.
Qed.

Lemma sub_0_r (x : float) : (x - 0 = x)%float.
Proof.
  apply Prim2SF_inj. rewrite sub_spec.
  change (Prim2SF 0) with (S754_zero false). apply SFsub_zero_r.
Qed.

Lemma mul_opp_opp (x y : float) : (- x * - y = x * y)%float.
Proof.
  apply Prim2SF_inj. now rewrite !mul_spec, !opp_spec, SFmul_opp_opp.
Qed.

(** [x == 0] holds of [0.] and [-0.] only, and both square to [0.]. *)
Lemma square_zero (x : float) : (x =? 0)%float = true -> (x * x = 0)%float.
Proof.
  rewrite FloatAxioms.eqb_spec. intros Hx.
  apply Prim2SF_inj. rewrite mul_spec.
  change (Prim2SF 0) with (S754_zero false) in *.
  destruct (Prim2SF x) as [[]|[]| |[] m e]; try discriminate; reflexivity.
Qed.

End FloatArith.

(** ** Construction and task setting *)

Section TaskEdges.
Context `{MujocoBase}.
Implicit Types (self : HalfCheetahDirEnv) (action : list float) (task : task_t).

(** X1.  The constructor falls back on direction [1.0] for no task and for the
    empty dictionary only.  Any other dictionary is used as it is: with a
    ['direction'] entry that entry is stored, whatever else the dictionary
    holds, and without one the constructor raises [KeyError]. *)
Theorem init_task_cases :
  __init__ None = Ok (mkEnv (NFloat 1) init_sim init_np_random init_frame_skip init_dt) /\
  __init__ (Some ∅) = __init__ None /\
  (forall task d, task !! "direction" = Some d ->
     __init__ (Some task)
     = Ok (mkEnv d init_sim init_np_random init_frame_skip init_dt)) /\
  (forall task, task <> ∅ -> task !! "direction" = None ->
     __init__ (Some task) = Raise (KeyError "direction")).
Proof.
  split; [reflexivity |]. split; [reflexivity |]. split.
  - intros task d Hd. unfold __init__, task_or_default.
    destruct (decide (task = ∅)) as [-> | _].
    + rewrite lookup_empty in Hd. discriminate.
    + unfold getitem. now rewrite Hd.
  - intros task Hne Hd. unfold __init__, task_or_default.
    destruct (decide (task = ∅)) as [-> | _]; [congruence |].
    unfold getitem. now rewrite Hd.
Qed.

(** X2.  [set_task] looks at the ['direction'] entry of the task and at nothing
    else: it raises exactly when the task has no such entry, and then it
    raises [KeyError('direction')]; two tasks that agree on the entry have
    the same effect. *)
Theorem set_task_direction_entry self :
  (forall task e,
     set_task self task = Raise e <->
     task !! "direction" = None /\ e = KeyError "direction") /\
  (forall task1 task2,
     task1 !! "direction" = task2 !! "direction" ->
     set_task self task1 = set_task self task2).
Proof.
  split.
  - intros task e. unfold set_task, getitem.
    destruct (task !! "direction") as [d|]; cbn; split.
    + discriminate.
    + intros [Hd _]. discriminate.
    + intros [= <-]. now split.
    + intros [_ ->]. reflexivity.
  - intros task1 task2 Hd. unfold set_task, getitem. now rewrite Hd.
Qed.

End TaskEdges.

(** ** Failures and side effects of [step] *)

Section StepEdges.
Context `{MujocoBase}.
Implicit Types (self : HalfCheetahDirEnv) (action : list float) (task : task_t).


Lemma sample_tasks_frame self num_tasks tasks self' :
  sample_tasks self num_tasks = Ok (tasks, self') ->
  self' = with_np_random self (np_random self').
Proof.
  unfold sample_tasks.
  destruct (binomial (np_random self) 1 0.5%float num_tasks) as [[draws g]|];
    [| discriminate].
  cbn. now intros [= _ <-].
Qed.

(** X4.  [step] works on the simulator and [sample_tasks] on the random source:
    in either order they return the same step result and the same tasks, and
    leave the same environment.  In particular sampling tasks does not
    change the active direction. *)
Theorem step_sample_tasks_commute self action num_tasks r self1 tasks self2 :
  step self action = Ok (r, self1) ->
  sample_tasks self num_tasks = Ok (tasks, self2) ->
  step self2 action = Ok (r, with_sim self2 (sim self1)) /\
  sample_tasks self1 num_tasks = Ok (tasks, with_np_random self1 (np_random self2)) /\
  with_sim self2 (sim self1) = with_np_random self1 (np_random self2) /\
  _goal_dir self2 = _goal_dir self.
Proof.
  intros Hstep Hsample.
  destruct (step_inv _ _ _ _ Hstep) as (xb & s' & xa & Hb & Hs & Ha & -> & ->).
  pose proof (sample_tasks_frame _ _ _ _ Hsample) as Hframe.
  rewrite Hframe. repeat split.
  - exact (step_returns (with_np_random self (np_random self2)) action
             xb s' xa Hb Hs Ha).
  - unfold sample_tasks in *. cbn [np_random with_sim with_np_random] in *.
    destruct (binomial (np_random self) 1 0.5%float num_tasks) as [[draws g]|];
      [| discriminate].
    cbn in *. injection Hsample as <- Hg. now rewrite <- Hg.
Qed.

End StepEdges.

(** ** NaN, zero and unit values in the reward *)

Module FloatNaN.

Lemma SFcompare_refl x : x <> S754_nan -> SFcompare x x = Some Eq.
Proof.
  destruct x as [s|s| |s m e]; intros Hx; simpl; try congruence.
  - now destruct s.
  - rewrite Z.compare_refl, Pos.compare_cont_refl. now destruct s.
Qed.

Lemma is_nan_true (x : float) : is_nan x = true -> x = nan.
Proof.
  unfold is_nan. rewrite FloatAxioms.eqb_spec. intros Hx.
  apply Prim2SF_inj. change (Prim2SF nan) with S754_nan.
  destruct (Prim2SF x) as [s|s| |s m e] eqn:Hs; try reflexivity;
    unfold SFeqb in Hx; rewrite SFcompare_refl in Hx by discriminate;
    discriminate.
Qed.

Lemma add_nan_r (x : float) : (x + nan = nan)%float.
Proof.
  apply Prim2SF_inj. rewrite add_spec. change (Prim2SF nan) with S754_nan.
  now destruct (Prim2SF x).
Qed.

Lemma add_nan_l (x : float) : (nan + x = nan)%float.
Proof.
  apply Prim2SF_inj. rewrite add_spec. now change (Prim2SF nan) with S754_nan.
Qed.

Lemma sub_nan_r (x : float) : (x - nan = nan)%float.
Proof.
  apply Prim2SF_inj. rewrite sub_spec. change (Prim2SF nan) with S754_nan.
  now destruct (Prim2SF x).
Qed.

Lemma leb_true_not_nan (x y : float) : (x <=? y)%float = true -> is_nan x = false.
Proof.
  rewrite FloatAxioms.leb_spec. unfold is_nan.
  rewrite FloatAxioms.eqb_spec. intros Hle.
  destruct (Prim2SF x) as [s|s| |s m e] eqn:Hs;
    try discriminate;
    unfold SFeqb; rewrite SFcompare_refl by discriminate; reflexivity.
Qed.

(** A sum is NaN as soon as one of its terms is. *)
Lemma fold_add_nan (a : list float) : forall acc,
  acc = nan \/ Exists (fun x => x = nan) a ->
  fold_left (fun acc x => (acc + x)%float) a acc = nan.
Proof.
  induction a as [|x a IH]; intros acc Hn; simpl.
  - destruct Hn as [-> | Hn]; [reflexivity | inversion Hn].
  - apply IH. destruct Hn as [-> | Hn].
    + left. apply add_nan_l.
    + inversion Hn as [? ? Hx | ? ? Hx]; subst.
      * left. apply add_nan_r.
      * now right.
Qed.

Lemma sum_of_squares_nan (a : list float) :
  Exists (fun x => is_nan x = true) a -> np_sum (np_square a) = nan.
Proof.
  intros Ha. unfold np_sum, np_square. apply fold_add_nan. right.
  induction Ha as [x a Hx | x a _ IH]; cbn [map].
  - apply Exists_cons_hd. apply is_nan_true in Hx. subst x. reflexivity.
  - now apply Exists_cons_tl.
Qed.

Lemma sum_of_squares_zero (a : list float) :
  Forall (fun x => (x =? 0)%float = true) a -> np_sum (np_square a) = 0%float.
Proof.
  unfold np_sum, np_square. induction 1 as [|x a Hx _ IH]; [reflexivity |].
  cbn [map fold_left]. now rewrite (FloatArith.square_zero x Hx).
Qed.

Lemma np_square_opp (a : list float) :
  np_square (map (fun x => (- x)%float) a) = np_square a.
Proof.
  unfold np_square. rewrite map_map. apply map_ext.
  intros x. apply FloatArith.mul_opp_opp.
Qed.

End FloatNaN.

Section RewardEdges.
Context `{MujocoBase}.
Implicit Types (self : HalfCheetahDirEnv) (action : list float) (task : task_t).

(** X5.  The control term of a returned step is NaN exactly when the action has a
    NaN entry, and then the reward is NaN as well. *)
Theorem step_nan_iff self action r self' :
  step self action = Ok (r, self') ->
  exists c,
    infos r !! "reward_ctrl" = Some (NFloat c) /\
    (is_nan c = true <-> Exists (fun x => is_nan x = true) action) /\
    (Exists (fun x => is_nan x = true) action -> is_nan (reward r) = true).
Proof.
  intros Hstep.
  destruct (step_inv _ _ _ _ Hstep) as (xb & s' & xa & _ & _ & _ & _ & ->).
  eexists. split; [reflexivity |]. cbn [reward].
  assert (Hnan : Exists (fun x => is_nan x = true) action ->
                 np_sum (np_square action) = nan)
    by apply FloatNaN.sum_of_squares_nan.
  split; [split |].
  - intros Hc.
    destruct (decide (Exists (fun x => is_nan x = true) action))
      as [Hex | Hnex]; [exact Hex | exfalso].
    assert (Hall : Forall (fun x => is_nan x = false) action).
    { apply Forall_forall. intros x Hin.
      destruct (is_nan x) eqn:Hx; [| reflexivity].
      exfalso. apply Hnex, Exists_exists. now exists x. }
    pose proof (sum_of_squares_nonneg _ Hall) as Hs.
    assert (Hle : (- (0.5 * 1e-1 * np_sum (np_square action)) <=? 0)%float = true).
    { apply FloatFacts.opp_nonneg_leb, FloatFacts.mul_nonneg;
        [reflexivity | reflexivity | exact Hs]. }
    apply FloatNaN.leb_true_not_nan in Hle. congruence.
  - intros Hex. rewrite (Hnan Hex). reflexivity.
  - intros Hex. rewrite (Hnan Hex).
    change (0.5 * 1e-1 * nan)%float with nan.
    now rewrite FloatNaN.sub_nan_r.
Qed.

(** X6.  An action whose entries are all zero ([0.] or [-0.]) costs nothing: the
    control term is [-0.] and the reward is the forward reward. *)
Theorem step_zero_action self action r self' :
  Forall (fun x => (x =? 0)%float = true) action ->
  step self action = Ok (r, self') ->
  infos r !! "reward_ctrl" = Some (NFloat (-0)) /\
  infos r !! "reward_forward" = Some (NFloat (reward r)).
Proof.
  intros Hzero Hstep.
  destruct (step_inv _ _ _ _ Hstep) as (xb & s' & xa & _ & _ & _ & _ & ->).
  cbn [infos reward]. rewrite (FloatNaN.sum_of_squares_zero _ Hzero).
  change (0.5 * 1e-1 * 0)%float with 0%float.
  rewrite FloatArith.sub_0_r. split; reflexivity.
Qed.

(** X7.  With direction 1 the forward reward is the measured velocity itself, bit
    for bit, and with direction -1 it is its negation; this holds whether the
    direction is stored as an integer or as a float. *)
Theorem step_unit_direction self action r self' :
  step self action = Ok (r, self') ->
  exists position_before position_after,
    index0 (qpos (sim self)) = Ok position_before /\
    index0 (qpos (sim self')) = Ok position_after /\
    (to_float (_goal_dir self) = 1%float ->
     infos r !! "reward_forward"
     = Some (NFloat ((position_after - position_before) / dt self)%float)) /\
    (to_float (_goal_dir self) = (-1)%float ->
     infos r !! "reward_forward"
     = Some (NFloat (- ((position_after - position_before) / dt self))%float)).
Proof.
  intros Hstep.
  destruct (step_inv _ _ _ _ Hstep) as (xb & s' & xa & Hb & _ & Ha & -> & ->).
  exists xb, xa. split; [exact Hb |]. split; [exact Ha |].
  cbn [infos]. split; intros Hd.
  - rewrite lookup_insert_eq, Hd, FloatArith.mul_1_l. reflexivity.
  - rewrite lookup_insert_eq, Hd, FloatArith.mul_m1_l. reflexivity.
Qed.

(** X8.  The control term does not change when every entry of the action changes
    sign. *)
Theorem step_reward_ctrl_even self action r1 self1 r2 self2 :
  step self action = Ok (r1, self1) ->
  step self (map (fun x => (- x)%float) action) = Ok (r2, self2) ->
  infos r1 !! "reward_ctrl" = infos r2 !! "reward_ctrl".
Proof.
  intros H1 H2.
  destruct (step_inv _ _ _ _ H1) as (? & ? & ? & _ & _ & _ & _ & ->).
  destruct (step_inv _ _ _ _ H2) as (? & ? & ? & _ & _ & _ & _ & ->).
  cbn [infos]. now rewrite FloatNaN.np_square_opp.
Qed.


End RewardEdges.

(** * Properties of the benchmark test *)

(** ** Strings and paths *)

Module Paths.
Import BenchmarkTest.

Lemma app_nil (a : string) : "" +:+ a = a.
Proof. reflexivity. Qed.

Lemma app_cons (x : ascii) (a b : string) : String x a +:+ b = String x (a +:+ b).
Proof. reflexivity. Qed.

Ltac push_app := repeat (rewrite app_cons || rewrite app_nil).

Lemma app_assoc (a b c : string) : (a +:+ b) +:+ c = a +:+ (b +:+ c).
Proof.
  induction a as [|x a IH]; push_app; [reflexivity | now rewrite IH].
Qed.

Lemma chars_app (a b : string) :
  String.list_ascii_of_string (a +:+ b)
  = String.list_ascii_of_string a ++ String.list_ascii_of_string b.
Proof.
  induction a as [|x a IH]; push_app; simpl;
    [reflexivity | now rewrite IH].
Qed.

(** Two strings that agree up to and including the first [c] agree before
    it. *)
Lemma app_split_at (c : ascii) (a : string) : forall a' b b',
  c ∉ String.list_ascii_of_string a -> c ∉ String.list_ascii_of_string a' ->
  a +:+ String c b = a' +:+ String c b' -> a = a'.
Proof.
  induction a as [|x a IH]; intros [|x' a'] b b' Ha Ha' Heq;
    repeat (rewrite app_cons in Heq || rewrite app_nil in Heq);
    simpl in *.
  - reflexivity.
  - injection Heq as <- _. exfalso. apply Ha'. constructor.
  - injection Heq as -> _. exfalso. apply Ha. constructor.
  - injection Heq as <- Heq. f_equal. apply (IH a' b b'); [| | exact Heq].
    + intros Hin. apply Ha. now constructor.
    + intros Hin. apply Ha'. now constructor.
Qed.

Lemma pretty_N_char_digit (x : N) : pretty_N_char x ∈ digits.
Proof.
  unfold pretty_N_char, digits. repeat case_match; cbn;
    repeat (first [apply list_elem_of_here | apply list_elem_of_further]).
Qed.

Lemma pretty_N_go_chars (x : N) : forall s c,
  c ∈ String.list_ascii_of_string (pretty_N_go x s) ->
  c ∈ digits \/ c ∈ String.list_ascii_of_string s.
Proof.
  induction (N.lt_wf_0 x) as [x _ IH]; intros s c Hc.
  destruct (decide (x = 0%N)) as [-> | Hx].
  - rewrite pretty_N_go_0 in Hc. now right.
  - rewrite pretty_N_go_step in Hc by lia.
    apply IH in Hc; [| apply N.div_lt; lia].
    destruct Hc as [Hc | Hc]; [now left |].
    cbn in Hc. apply elem_of_cons in Hc. destruct Hc as [-> | Hc].
    + left. apply pretty_N_char_digit.
    + now right.
Qed.

(** The decimal form of a positive integer has digits only. *)
Lemma pretty_pos_chars (z : Z) (c : ascii) :
  (0 < z)%Z -> c ∈ String.list_ascii_of_string (pretty z) -> c ∈ digits.
Proof.
  destruct z as [|p|p]; try lia. intros _.
  unfold pretty, pretty_Z, pretty, pretty_positive, pretty, pretty_N.
  destruct (decide (N.pos p = 0%N)); [discriminate |].
  intros Hc. apply pretty_N_go_chars in Hc.
  destruct Hc as [Hc | Hc]; [exact Hc | inversion Hc].
Qed.

Lemma endswith_sep_app (a : string) (c : ascii) (b : string) :
  endswith_sep (a +:+ String c b) = endswith_sep (String c b).
Proof.
  induction a as [|x a IH]; [reflexivity |].
  rewrite app_cons, <- IH. cbn [endswith_sep].
  destruct (a +:+ String c b) eqn:Happ; [| reflexivity].
  destruct a; discriminate.
Qed.

(** Joining a relative name to a directory that ends in ['/'] appends it. *)
Lemma osp_join_dir (a b : string) :
  String.prefix "/" b = false -> endswith_sep a = true ->
  osp_join a b = a +:+ b.
Proof.
  intros Hb Ha. unfold osp_join. rewrite Hb, Ha.
  now rewrite orb_true_r.
Qed.

(** Joining it to a directory name that ends in a letter puts one ['/']
    between them. *)
Lemma osp_join_garage (a b : string) :
  String.prefix "/" b = false ->
  osp_join (a +:+ "/garage") b = (a +:+ "/garage") +:+ "/" +:+ b.
Proof.
  intros Hb. unfold osp_join. rewrite Hb, endswith_sep_app.
  replace (String.eqb (a +:+ "/garage") "") with false; [reflexivity |].
  symmetry. apply String.eqb_neq. destruct a; discriminate.
Qed.

(** Trials with different numbers have different directories, whatever
    their seeds. *)
Lemma garage_dir_inj (task_dir : string) (t t' : nat) (s s' : Z) :
  garage_dir task_dir t s = garage_dir task_dir t' s' -> t = t'.
Proof.
  unfold garage_dir, trial_dir. rewrite !app_assoc. intros Heq.
  apply (inj (String.append task_dir)) in Heq.
  repeat (rewrite app_cons in Heq || rewrite app_nil in Heq).
  injection Heq as Heq.
  apply app_split_at in Heq.
  - apply (inj pretty) in Heq. lia.
  - intros Hc. apply pretty_pos_chars in Hc; [| lia].
    unfold digits in Hc. cbn in Hc.
    repeat (apply elem_of_cons in Hc; destruct Hc as [Hc | Hc];
            [discriminate |]).
    inversion Hc.
  - intros Hc. apply pretty_pos_chars in Hc; [| lia].
    unfold digits in Hc. cbn in Hc.
    repeat (apply elem_of_cons in Hc; destruct Hc as [Hc | Hc];
            [discriminate |]).
    inversion Hc.
Qed.

Lemma replace_char_chars (old new : ascii) (s : string) :
  old <> new -> old ∉ String.list_ascii_of_string (replace_char old new s).
Proof.
  intros Hne. induction s as [|c s IH]; cbn; [inversion 1 |].
  intros Hin. apply elem_of_cons in Hin. destruct Hin as [Hin | Hin].
  - destruct (Ascii.eqb_spec c old) as [-> | Hc]; congruence.
  - now apply IH.
Qed.

End Paths.

(** ** The trial loop *)

Section TestLoops.
Import Benchmark BenchmarkTest.
Context `{PyRandom}.

Lemma trial_loop_app env_id task_dir seeds (l1 l2 : list nat) f :
  trial_loop env_id task_dir seeds (l1 ++ l2) f
  = f' ← trial_loop env_id task_dir seeds l1 f;
    trial_loop env_id task_dir seeds l2 f'.
Proof.
  revert f. induction l1 as [|t l1 IH]; intros f; [reflexivity |].
  cbn [app trial_loop].
  destruct (trial_body env_id task_dir seeds f t) as [f'|e]; [apply IH |].
  reflexivity.
Qed.

Lemma tabular_log_file_garage task_dir t s :
  tabular_log_file (garage_dir task_dir t s)
  = garage_dir task_dir t s +:+ "/progress.csv".
Proof. unfold tabular_log_file, garage_dir. now rewrite Paths.osp_join_garage. Qed.

(** The loop over [range(n)] runs one trial per seed, in order, and leaves
    [garage_tf_dir] bound to the directory of the last one. *)
Lemma trial_loop_seq env_id task_dir seeds (n : nat) f :
  n <= length seeds ->
  trial_loop env_id task_dir seeds (seq 0 n) f
  = Passed (mkFrame
      (match n with
       | O => garage_tf_dir f
       | S m => garage_dir task_dir m <$> seeds !! m
       end)
      (garage_tf_csvs f ++ trial_csvs task_dir (take n seeds))
      (calls f ++ trial_calls env_id task_dir (take n seeds))
      (rng f)).
Proof.
  induction n as [|n IH]; intros Hn.
  - destruct f. unfold trial_csvs, trial_calls. cbn. now rewrite !app_nil_r.
  - rewrite seq_S, trial_loop_app, IH by lia. cbn [mbind outcome_bind].
    cbn [trial_loop Nat.add]. unfold trial_body at 1.
    destruct (lookup_lt_is_Some_2 seeds n ltac:(lia)) as [s Hs].
    rewrite Hs. cbn [mbind outcome_bind garage_tf_csvs calls rng fmap option_fmap option_map].
    rewrite (take_S_r _ _ _ Hs).
    unfold trial_csvs, trial_calls.
    rewrite !imap_app, join_app, !length_take, !Nat.min_l by lia.
    cbn [imap mjoin list_join app].
    rewrite ?Nat.add_0_r, ?app_nil_r, tabular_log_file_garage, <- ?List.app_assoc.
    reflexivity.
Qed.

End TestLoops.

(** ** The calls of the test *)

Section TestCalls.
Import Benchmark BenchmarkTest.
Context `{PyRandom}.

Lemma benchmark_dir_join timestamp (name : string) :
  String.prefix "/" name = false ->
  osp_join (benchmark_dir timestamp) name = benchmark_dir timestamp +:+ name.
Proof.
  intros Hname. apply Paths.osp_join_dir; [exact Hname |].
  unfold benchmark_dir. rewrite <- Paths.app_assoc.
  apply Paths.endswith_sep_app.
Qed.

(** Selecting from the calls of a loop is selecting from each iteration. *)
Lemma omap_join_imap {A B C} (p : B -> option C) (l : list A) :
  forall (f : nat -> A -> list B) (g : nat -> A -> list C),
  (forall i x, omap p (f i x) = g i x) ->
  omap p (mjoin (imap f l)) = mjoin (imap g l).
Proof.
  induction l as [|x l IH]; intros f g Hfg; [reflexivity |].
  rewrite !imap_cons. change (omap p (f 0 x ++ mjoin (imap (f ∘ S) l))
                              = g 0 x ++ mjoin (imap (g ∘ S) l)).
  rewrite omap_app, Hfg. f_equal. apply IH. intros i y. apply Hfg.
Qed.

Lemma join_imap_singleton {A B} (l : list A) : forall (h : nat -> A -> B),
  mjoin (imap (fun i x => [h i x]) l) = imap h l.
Proof.
  induction l as [|x l IH]; intros h; [reflexivity |].
  rewrite !imap_cons. change ([h 0 x] ++ mjoin (imap (fun i y => [h (S i) y]) l)
                              = h 0 x :: imap (h ∘ S) l).
  now rewrite IH.
Qed.

Lemma join_imap_nil {A B} (l : list A) : forall (f : nat -> A -> list B),
  (forall i x, f i x = []) -> mjoin (imap f l) = [].
Proof.
  induction l as [|x l IH]; intros f Hf; [reflexivity |].
  rewrite imap_cons. change (f 0 x ++ mjoin (imap (f ∘ S) l) = []).
  rewrite Hf, IH; [reflexivity |]. intros i y. apply Hf.
Qed.

Lemma run_garage_dirs_trials env_id task_dir seeds :
  run_garage_dirs (trial_calls env_id task_dir seeds)
  = imap (garage_dir task_dir) seeds.
Proof.
  unfold trial_calls, run_garage_dirs.
  erewrite omap_join_imap; [apply join_imap_singleton |]. reflexivity.
Qed.

Lemma run_garage_seeds_trials env_id task_dir seeds :
  run_garage_seeds (trial_calls env_id task_dir seeds) = seeds.
Proof.
  unfold trial_calls, run_garage_seeds.
  erewrite omap_join_imap with (g := fun _ s => [s]); [| reflexivity].
  rewrite (join_imap_singleton seeds (fun _ s => s)).
  induction seeds as [|s seeds IH]; [reflexivity |].
  rewrite imap_cons. f_equal. exact IH.
Qed.

Lemma parameter_files_trials env_id task_dir seeds :
  parameter_files (trial_calls env_id task_dir seeds) = [].
Proof.
  unfold trial_calls, parameter_files.
  erewrite omap_join_imap with (g := fun _ _ => []); [| reflexivity].
  now apply join_imap_nil.
Qed.

Lemma plots_trials env_id task_dir seeds :
  plots (trial_calls env_id task_dir seeds) = [].
Proof.
  unfold trial_calls, plots.
  erewrite omap_join_imap with (g := fun _ _ => []); [| reflexivity].
  now apply join_imap_nil.
Qed.

Lemma trial_csvs_dirs task_dir seeds :
  trial_csvs task_dir seeds
  = tabular_log_file <$> imap (garage_dir task_dir) seeds.
Proof.
  unfold trial_csvs. rewrite fmap_imap. apply imap_ext.
  intros i s _. symmetry. apply tabular_log_file_garage.
Qed.

(** No two trials have the same log directory. *)
Lemma garage_dirs_NoDup task_dir seeds :
  NoDup (imap (garage_dir task_dir) seeds).
Proof.
  apply NoDup_alt. intros i j d Hi Hj.
  rewrite list_lookup_imap in Hi, Hj.
  destruct (seeds !! i) as [si|]; [| discriminate].
  destruct (seeds !! j) as [sj|]; [| discriminate].
  cbn in Hi, Hj. injection Hi as Hi. injection Hj as Hj.
  apply (Paths.garage_dir_inj task_dir i j si sj). congruence.
Qed.

(** With between 1 and 100 trials the test passes, and these are its calls:
    the trials, one file of parameters in the directory of the last trial,
    closing the environment, and one plot per metric. *)
Lemma test_benchmark_rl2_calls hp timestamp (g : Rng) :
  random_sample_contract ->
  (1 <= n_trials hp <= 100)%Z ->
  let task_dir := benchmark_dir timestamp +:+ "HalfCheetahVelEnv" in
  exists seeds g' last_trial last_seed,
    random_sample g 100 (n_trials hp) = Passed (seeds, g') /\
    length seeds = S last_trial /\
    Z.of_nat (length seeds) = n_trials hp /\
    seeds !! last_trial = Some last_seed /\
    test_benchmark_rl2 hp timestamp g
    = Passed (trial_calls "HalfCheetahVelEnv" task_dir seeds
              ++ [write_parameters
                    (garage_dir task_dir last_trial last_seed
                     +:+ "/parameters.txt");
                  env_close "HalfCheetahVelEnv"]
              ++ map (fun g_y =>
                        relplot (trial_csvs task_dir seeds) g_y (n_trials hp)
                          seeds
                          (plt_file (benchmark_dir timestamp)
                                    "HalfCheetahVelEnv" g_y)
                          "HalfCheetahVelEnv") g_ys).
Proof.
  intros Hsample Hn task_dir.
  destruct (Hsample g 100%Z (n_trials hp) ltac:(lia))
    as (seeds & g' & Hs & Hlen & _ & _).
  assert (Hm : exists m, length seeds = S m)
    by (destruct (length seeds) as [|m]; [lia | now exists m]).
  destruct Hm as [m Hm].
  destruct (lookup_lt_is_Some_2 seeds m ltac:(lia)) as [s_last Hlast].
  exists seeds, g', m, s_last.
  split; [exact Hs |]. split; [exact Hm |]. split; [exact Hlen |].
  split; [exact Hlast |].
  unfold test_benchmark_rl2.
  change env_ids with ["HalfCheetahVelEnv"]. cbn [env_loop].
  unfold env_body. cbn [rng]. rewrite Hs. cbn [mbind outcome_bind].
  rewrite benchmark_dir_join by reflexivity. fold task_dir.
  replace (Z.to_nat (n_trials hp)) with (S m) by lia.
  rewrite trial_loop_seq by lia.
  cbn [mbind outcome_bind garage_tf_dir garage_tf_csvs calls rng].
  rewrite Hlast. cbn [fmap option_fmap option_map mret outcome_ret calls
                      garage_tf_csvs app].
  rewrite take_ge by lia.
  unfold garage_dir at 2. rewrite Paths.osp_join_garage by reflexivity.
  reflexivity.
Qed.

End TestCalls.

(** ** What the test does *)

Section TestClaims.
Import Benchmark BenchmarkTest.
Context `{PyRandom}.


(** The selections from the calls of a passing test. *)
Lemma selections_calls env_id task_dir seeds path (plots_made : list event) :
  plots plots_made = plots_made ->
  run_garage_dirs plots_made = [] ->
  run_garage_seeds plots_made = [] ->
  parameter_files plots_made = [] ->
  let calls := trial_calls env_id task_dir seeds
               ++ [write_parameters path; env_close env_id] ++ plots_made in
  run_garage_dirs calls = imap (garage_dir task_dir) seeds /\
  run_garage_seeds calls = seeds /\
  parameter_files calls = [path] /\
  plots calls = plots_made.
Proof.
  intros Hp Hd Hs Hf calls. subst calls. repeat split.
  - unfold run_garage_dirs in *. rewrite !omap_app.
    fold (run_garage_dirs (trial_calls env_id task_dir seeds)).
    rewrite run_garage_dirs_trials, Hd. cbn. now rewrite app_nil_r.
  - unfold run_garage_seeds in *. rewrite !omap_app.
    fold (run_garage_seeds (trial_calls env_id task_dir seeds)).
    rewrite run_garage_seeds_trials, Hs. cbn. now rewrite app_nil_r.
  - unfold parameter_files in *. rewrite !omap_app.
    fold (parameter_files (trial_calls env_id task_dir seeds)).
    rewrite parameter_files_trials, Hf. reflexivity.
  - unfold plots in *. rewrite !omap_app.
    fold (plots (trial_calls env_id task_dir seeds)).
    rewrite plots_trials, Hp. reflexivity.
Qed.

(** X11.  With between 1 and 100 trials the test passes, and it calls
    [run_garage] once per trial: with the sampled seeds in their order, trial
    [t] (counted from 1) logging to
    [<benchmark_dir>/HalfCheetahVelEnv/trial_<t>_seed_<seed>/garage].  No two
    of these calls share a log directory. *)
Theorem test_benchmark_runs hp timestamp (g : Rng) :
  random_sample_contract ->
  (1 <= n_trials hp <= 100)%Z ->
  exists seeds g' calls,
    random_sample g 100 (n_trials hp) = Passed (seeds, g') /\
    test_benchmark_rl2 hp timestamp g = Passed calls /\
    run_garage_seeds calls = seeds /\
    run_garage_dirs calls
    = imap (garage_dir (benchmark_dir timestamp +:+ "HalfCheetahVelEnv")) seeds /\
    Z.of_nat (length (run_garage_dirs calls)) = n_trials hp /\
    NoDup (run_garage_dirs calls).
Proof.
  intros Hsample Hn.
  destruct (test_benchmark_rl2_calls hp timestamp g Hsample Hn)
    as (seeds & g' & m & s_last & Hs & Hm & Hlen & Hlast & Htest).
  exists seeds, g'. eexists. split; [exact Hs |]. split; [exact Htest |].
  edestruct selections_calls as (Hd & Hsd & _ & _);
    [| | | | rewrite Hd, Hsd]; try reflexivity.
  repeat split.
  - now rewrite length_imap.
  - apply garage_dirs_NoDup.
Qed.

(** X12.  A passing test draws one plot per metric, each from the CSV logs of all
    the [run_garage] calls, in the order of the calls, and with their seeds. *)
Theorem test_benchmark_plots hp timestamp (g : Rng) :
  random_sample_contract ->
  (1 <= n_trials hp <= 100)%Z ->
  exists calls,
    test_benchmark_rl2 hp timestamp g = Passed calls /\
    plots calls
    = map (fun g_y =>
             relplot (tabular_log_file <$> run_garage_dirs calls) g_y
               (n_trials hp) (run_garage_seeds calls)
               (plt_file (benchmark_dir timestamp) "HalfCheetahVelEnv" g_y)
               "HalfCheetahVelEnv")
          ["Evaluation/AverageReturn"; "MetaTest/AverageReturn"].
Proof.
  intros Hsample Hn.
  destruct (test_benchmark_rl2_calls hp timestamp g Hsample Hn)
    as (seeds & g' & m & s_last & Hs & Hm & Hlen & Hlast & Htest).
  eexists. split; [exact Htest |].
  edestruct selections_calls as (Hd & Hsd & _ & Hp);
    [| | | | rewrite Hd, Hsd, Hp]; try reflexivity.
  now rewrite trial_csvs_dirs.
Qed.

(** X13.  A passing test writes the hyper-parameters once, into the log directory
    of the last trial and of no other. *)
Theorem test_benchmark_parameters hp timestamp (g : Rng) :
  random_sample_contract ->
  (1 <= n_trials hp <= 100)%Z ->
  exists calls last_dir,
    test_benchmark_rl2 hp timestamp g = Passed calls /\
    last (run_garage_dirs calls) = Some last_dir /\
    parameter_files calls = [last_dir +:+ "/parameters.txt"].
Proof.
  intros Hsample Hn.
  destruct (test_benchmark_rl2_calls hp timestamp g Hsample Hn)
    as (seeds & g' & m & s_last & Hs & Hm & Hlen & Hlast & Htest).
  eexists. eexists. split; [exact Htest |].
  edestruct selections_calls as (Hd & _ & Hf & _);
    [| | | | rewrite Hd, Hf]; try reflexivity.
  split; [| reflexivity].
  rewrite last_lookup, length_imap, Hm, list_lookup_imap. cbn [pred].
  now rewrite Hlast.
Qed.

End TestClaims.

Section PlotNames.
Import Benchmark BenchmarkTest.

Lemma prefix_sep_false (s : string) :
  "/"%char ∉ String.list_ascii_of_string s -> s <> "" ->
  String.prefix "/" s = false.
Proof.
  destruct s as [|c s]; [congruence |]. intros Hc _.
  change (String.prefix "/" (String c s))
    with (if Ascii.ascii_dec "/" c then String.prefix "" s else false).
  destruct (Ascii.ascii_dec "/" c) as [<- | Hne]; [| reflexivity].
  exfalso. apply Hc. constructor.
Qed.

(** X14.  A plot is a file of the benchmark directory itself: the ['/'] of a metric
    such as [Evaluation/AverageReturn] is replaced, so that the name of the
    plot opens no sub-directory, provided the environment's name has no
    ['/'] either. *)
Theorem plt_file_in_benchmark_dir timestamp env_id g_y :
  "/"%char ∉ String.list_ascii_of_string env_id ->
  plt_file (benchmark_dir timestamp) env_id g_y
  = benchmark_dir timestamp +:+ plot_name env_id g_y /\
  "/"%char ∉ String.list_ascii_of_string (plot_name env_id g_y).
Proof.
  intros Hid.
  assert (Hname : "/"%char ∉ String.list_ascii_of_string (plot_name env_id g_y)).
  { unfold plot_name. rewrite !Paths.chars_app, !elem_of_app.
    intros [Hc | [Hc | [Hc | Hc]]].
    - now apply Hid.
    - cbn in Hc.
      repeat (apply elem_of_cons in Hc; destruct Hc as [Hc | Hc];
              [discriminate |]).
      inversion Hc.
    - now apply (Paths.replace_char_chars "/" "-" g_y) in Hc.
    - cbn in Hc.
      repeat (apply elem_of_cons in Hc; destruct Hc as [Hc | Hc];
              [discriminate |]).
      inversion Hc.
  }
  split; [| exact Hname].
  unfold plt_file. apply benchmark_dir_join.
  apply prefix_sep_false; [exact Hname |].
  unfold plot_name. destruct env_id; discriminate.
Qed.

End PlotNames.

(** ** These statements at work *)

Module MoreRuns.
Import PointMass Benchmark BenchmarkTest ToyRandom.

Lemma set_task_direction_entry_witness :
  set_task env0 {[ "velocity" := NFloat 2 ]} = Raise (KeyError "direction") /\
  set_task env0 {[ "direction" := NFloat (-1) ]}
  = set_task env0 {[ "direction" := NFloat (-1); "velocity" := NFloat 2 ]}.
Proof.
  destruct (set_task_direction_entry env0) as [Hraise Hsame]. split.
  - apply Hraise. split; reflexivity.
  - apply Hsame. reflexivity.
Defined.

Example init_without_direction :
  __init__ (Some {[ "velocity" := NFloat 2 ]}) = Raise (KeyError "direction").
Proof. reflexivity. Qed.

Example step_wrong_shape :
  step env0 [1; 0]%float = Raise SimulationError.
Proof. reflexivity. Qed.

Lemma step_sample_tasks_commute_witness :
  step env_after_sampling action0
  = Ok ((step_on action0).1, with_sim env_after_sampling (sim (step_on action0).2)) /\
  sample_tasks (step_on action0).2 5
  = Ok (tasks5, with_np_random (step_on action0).2 (np_random env_after_sampling)) /\
  with_sim env_after_sampling (sim (step_on action0).2)
  = with_np_random (step_on action0).2 (np_random env_after_sampling) /\
  _goal_dir env_after_sampling = _goal_dir env0.
Proof.
  apply (step_sample_tasks_commute env0 action0 5); reflexivity.
Defined.

Lemma step_nan_iff_witness :
  exists c,
    infos (step_on nan_action).1 !! "reward_ctrl" = Some (NFloat c) /\
    (is_nan c = true <-> Exists (fun x => is_nan x = true) nan_action) /\
    (Exists (fun x => is_nan x = true) nan_action ->
     is_nan (reward (step_on nan_action).1) = true).
Proof.
  apply (step_nan_iff env0 nan_action _ (step_on nan_action).2). reflexivity.
Defined.

Lemma step_zero_action_witness :
  infos (step_on zero_action).1 !! "reward_ctrl" = Some (NFloat (-0)) /\
  infos (step_on zero_action).1 !! "reward_forward"
  = Some (NFloat (reward (step_on zero_action).1)).
Proof.
  apply (step_zero_action env0 zero_action _ (step_on zero_action).2).
  - repeat constructor.
  - reflexivity.
Defined.

Lemma step_unit_direction_witness :
  exists position_before position_after,
    index0 (qpos (sim env0)) = Ok position_before /\
    index0 (qpos (sim (step_on action0).2)) = Ok position_after /\
    (to_float (_goal_dir env0) = 1%float ->
     infos (step_on action0).1 !! "reward_forward"
     = Some (NFloat ((position_after - position_before) / dt env0)%float)) /\
    (to_float (_goal_dir env0) = (-1)%float ->
     infos (step_on action0).1 !! "reward_forward"
     = Some (NFloat (- ((position_after - position_before) / dt env0))%float)).
Proof.
  apply (step_unit_direction env0 action0). reflexivity.
Defined.

Lemma step_reward_ctrl_even_witness :
  infos (step_on action0).1 !! "reward_ctrl"
  = infos (step_on opp_action0).1 !! "reward_ctrl".
Proof.
  apply (step_reward_ctrl_even env0 action0 _ (step_on action0).2
           _ (step_on opp_action0).2); reflexivity.
Defined.


Lemma toy_sample_contract : random_sample_contract.
Proof.
  intros g n k Hk. cbn. unfold top_sample.
  destruct (Z.ltb_spec k 0) as [Hlt | _]; [lia |].
  destruct (Z.ltb_spec n k) as [Hlt | _]; [lia |]. cbn.
  eexists _, _. split; [reflexivity |]. split; [| split].
  - rewrite length_fmap, length_seq. lia.
  - apply NoDup_fmap_2; [| apply NoDup_seq]. intros i j Hij. lia.
  - apply Forall_fmap, Forall_forall. intros i Hi.
    apply elem_of_seq in Hi. cbn. lia.
Qed.


Lemma test_benchmark_runs_witness :
  exists seeds g' calls,
    random_sample 0%nat 100 (n_trials (with_n_trials 3)) = Passed (seeds, g') /\
    test_benchmark_rl2 (with_n_trials 3) "T" 0%nat = Passed calls /\
    run_garage_seeds calls = seeds /\
    run_garage_dirs calls
    = imap (garage_dir (benchmark_dir "T" +:+ "HalfCheetahVelEnv")) seeds /\
    Z.of_nat (length (run_garage_dirs calls)) = n_trials (with_n_trials 3) /\
    NoDup (run_garage_dirs calls).
Proof.
  apply (test_benchmark_runs (H := toy) (with_n_trials 3) "T" 0%nat).
  - exact toy_sample_contract.
  - cbn. lia.
Defined.

Example test_benchmark_dirs :
  exists calls,
    test_benchmark_rl2 (with_n_trials 3) "T" 0%nat = Passed calls /\
    run_garage_dirs calls
    = ["./data/local/benchmarks/rl2/T/HalfCheetahVelEnv/trial_1_seed_99/garage";
       "./data/local/benchmarks/rl2/T/HalfCheetahVelEnv/trial_2_seed_98/garage";
       "./data/local/benchmarks/rl2/T/HalfCheetahVelEnv/trial_3_seed_97/garage"] /\
    parameter_files calls
    = ["./data/local/benchmarks/rl2/T/HalfCheetahVelEnv/trial_3_seed_97/garage/parameters.txt"].
Proof. eexists. split; [vm_compute; reflexivity |]. split; reflexivity. Qed.

Lemma test_benchmark_plots_witness :
  exists calls,
    test_benchmark_rl2 hyper_parameters "T" 0%nat = Passed calls /\
    plots calls
    = map (fun g_y =>
             relplot (tabular_log_file <$> run_garage_dirs calls) g_y
               (n_trials hyper_parameters) (run_garage_seeds calls)
               (plt_file (benchmark_dir "T") "HalfCheetahVelEnv" g_y)
               "HalfCheetahVelEnv")
          ["Evaluation/AverageReturn"; "MetaTest/AverageReturn"].
Proof.
  apply (test_benchmark_plots (H := toy) hyper_parameters "T" 0%nat).
  - exact toy_sample_contract.
  - cbn. lia.
Defined.

Lemma test_benchmark_parameters_witness :
  exists calls last_dir,
    test_benchmark_rl2 hyper_parameters "T" 0%nat = Passed calls /\
    last (run_garage_dirs calls) = Some last_dir /\
    parameter_files calls = [last_dir +:+ "/parameters.txt"].
Proof.
  apply (test_benchmark_parameters (H := toy) hyper_parameters "T" 0%nat).
  - exact toy_sample_contract.
  - cbn. lia.
Defined.

Lemma plt_file_in_benchmark_dir_witness :
  plt_file (benchmark_dir "T") "HalfCheetahVelEnv" "Evaluation/AverageReturn"
  = benchmark_dir "T"
    +:+ plot_name "HalfCheetahVelEnv" "Evaluation/AverageReturn" /\
  "/"%char ∉ String.list_ascii_of_string
               (plot_name "HalfCheetahVelEnv" "Evaluation/AverageReturn").
Proof.
  apply (plt_file_in_benchmark_dir "T" "HalfCheetahVelEnv").
  cbn. intros Hc.
  repeat (apply elem_of_cons in Hc; destruct Hc as [Hc | Hc]; [discriminate |]).
  inversion Hc.
Defined.

Example plt_file_value :
  plt_file (benchmark_dir "T") "HalfCheetahVelEnv" "Evaluation/AverageReturn"
  = "./data/local/benchmarks/rl2/T/HalfCheetahVelEnv_benchmark_fit_individial_Evaluation-AverageReturn.png".
Proof. reflexivity. Qed.

End MoreRuns.
